(** * EDM-Limits: conversions of electric-dipole-moment bounds

    A shallow embedding of [hadronic.py], [electron.py] and [schiff.py].

    Numbers.  Python floats (and the integers that the code mixes with
    them) are read as real numbers: every arithmetic operation is the exact
    one, rounding and overflow are outside the model.  What float
    arithmetic produces outside the finite reals is kept as an error
    outcome: a division by zero (ZeroDivisionError on Python floats, inf or
    nan with a RuntimeWarning on numpy floats) is [ZeroDivisionError], the
    square root of a negative number (numpy's nan, "invalid value
    encountered in sqrt") is [InvalidValue].  The model stops at the first
    such outcome, where numpy would carry the inf or nan on through the
    operations that follow: an error outcome says that the computation has
    left the finite reals at that operation, and the theorems about error
    outcomes are stated where nothing that follows leads back to a number.
    A division whose divisor is
    built from literals of the source or from the physical constants only
    is written with the plain [/]; a power with the float exponent [3.0] or
    [4.0] is the natural-number power.

    Objects.  An [EDMLimit] instance is its class together with its
    attribute dictionary; [__init__] writes the three attributes, a property is a
    computation that receives [self] and hands it back with its outcome. *)

From Stdlib Require Import Reals Lra ZArith String.

Open Scope R_scope.

(** ** Python values and outcomes *)

Inductive pyval : Type :=
| PyNone
| PyFloat (x : R).

Inductive exn : Type :=
| TypeError
| AttributeError
| ZeroDivisionError
| InvalidValue.

Inductive result (A : Type) : Type :=
| Ok (a : A)
| Raise (e : exn).

Arguments Ok {A} a.
Arguments Raise {A} e.

Class Monad (M : Type -> Type) : Type := {
  ret : forall {A : Type}, A -> M A;
  bind : forall {A B : Type}, M A -> (A -> M B) -> M B
}.

Notation "x <- m ;; k" := (bind m (fun x => k))
  (at level 61, m at next level, right associativity).

#[export] Instance result_monad : Monad result := {
  ret := fun A a => Ok a;
  bind := fun A B m k => match m with Ok a => k a | Raise e => Raise e end
}.

(** [x / y] on floats, the divisor not being a constant. *)
Definition true_div (x y : R) : result R :=
  if Req_dec_T y 0 then Raise ZeroDivisionError else Ok (x / y).

(** [numpy.sqrt]. *)
Definition np_sqrt (x : R) : result R :=
  if Rlt_dec x 0 then Raise InvalidValue else Ok (sqrt x).

(** [v * c] for a float [c]: [None * c] is a TypeError. *)
Definition py_mul (v : pyval) (c : R) : result R :=
  match v with
  | PyNone => Raise TypeError
  | PyFloat x => Ok (x * c)
  end.

(** ** Instances of the EDMLimit hierarchy *)

Inductive klass : Type :=
| EDMLimit_cls
| NeutronLimit_cls
| HgLimit_cls
| XeLimit_cls
| TlFLimit_cls
| RaLimit_cls
| YbLimit_cls
| eEDMLimit_cls.

(** The classes that [load_data._get_limit_class] maps a system name to. *)
Definition hadronic_cls (k : klass) : bool :=
  match k with
  | EDMLimit_cls | eEDMLimit_cls => false
  | _ => true
  end.

(** The class attribute [system]. *)
Definition system (k : klass) : option string :=
  match k with
  | EDMLimit_cls | eEDMLimit_cls => None
  | NeutronLimit_cls => Some "neutron"%string
  | HgLimit_cls => Some "Hg"%string
  | XeLimit_cls => Some "Xe"%string
  | TlFLimit_cls => Some "TlF"%string
  | RaLimit_cls => Some "Ra"%string
  | YbLimit_cls => Some "Yb"%string
  end.

Record instance : Type := mkInstance {
  cls : klass;
  year : option Z;
  edm_e_cm : option R;
  ref : option string
}.

(** A method body: it runs on [self] and returns its outcome with [self]. *)
Definition method (A : Type) : Type := instance -> result A * instance.

#[export] Instance method_monad : Monad method := {
  ret := fun A a self => (Ok a, self);
  bind := fun A B m k self =>
    match m self with
    | (Ok a, self') => k a self'
    | (Raise e, self') => (Raise e, self')
    end
}.

Definition lift {A : Type} (r : result A) : method A :=
  fun self => (r, self).

Definition raise {A : Type} (e : exn) : method A := lift (Raise e).

(** [self.edm_e_cm] *)
Definition get_edm_e_cm : method R :=
  fun self =>
    match edm_e_cm self with
    | Some x => (Ok x, self)
    | None => (Raise AttributeError, self)
    end.

(** The value a property evaluates to, and the object it leaves. *)
Definition value_of {A : Type} (m : method A) (self : instance) : result A :=
  fst (m self).

Definition object_after {A : Type} (m : method A) (self : instance) : instance :=
  snd (m self).

(** [EDMLimit.__init__], which every subclass calls through [super()]. *)
Definition __init__ (year0 : Z) (edm_e_cm0 : R) (ref0 : string) : method unit :=
  fun self =>
    (Ok tt,
     {| cls := cls self;
        year := Some year0;
        edm_e_cm := Some edm_e_cm0;
        ref := Some ref0 |}).

(** [k(year, edm_e_cm, ref)]: a fresh object of class [k], initialised. *)
Definition construct (k : klass) (year0 : Z) (edm_e_cm0 : R) (ref0 : string)
  : instance :=
  object_after (__init__ year0 edm_e_cm0 ref0)
    {| cls := k; year := None; edm_e_cm := None; ref := None |}.

(** ** hadronic.py *)

Module hadronic.

Definition cEDM_Hg (d_Hg : R) : R :=
  let factor := 5.7e-27 / 7.4e-30 in
  d_Hg * factor.

(** The default of the argument [d_q]. *)
Definition d_q_default : R := 1e-27.

Definition chromo_EDM_limits_on_new_particle_mass (d_q : pyval) : result R :=
  let alpha := 1 / 137 in
  let m_q := 5 in
  let prefactor := alpha * m_q / PI in
  let cm_to_fm := 10 ^ 15 / 10 ^ 2 in
  d_q_fm <- py_mul d_q cm_to_fm ;;
  let fm_to_inv_MeV := 1 / 197 in
  let d_q_inv_MeV := d_q_fm * fm_to_inv_MeV in
  let MeV_to_TeV := (1.0 / 1e-6) * (1e-12 / 1.0) in
  q <- true_div (prefactor * 1) d_q_inv_MeV ;;
  r <- np_sqrt q ;;
  ret (MeV_to_TeV * r).

Module EDMLimit.
(** [pass]: the property returns None. *)
Definition theta_QCD : method pyval := ret PyNone.
Definition cEDM : method pyval := ret PyNone.
End EDMLimit.

Module NeutronLimit.
Definition theta_QCD : method R :=
  let n_edm_theta_factor := 0.0039 in
  let factor_in_cm := n_edm_theta_factor * (1e2 / 1e15) in
  edm <- get_edm_e_cm ;;
  ret (edm / factor_in_cm).

Definition cEDM : method R :=
  edm <- get_edm_e_cm ;;
  ret (edm / 0.55).
End NeutronLimit.

Module HgLimit.
Definition theta_QCD : method R :=
  let graner_ratio := 7.4e-30 / 1.5e-10 in
  edm <- get_edm_e_cm ;;
  ret (edm / graner_ratio).

Definition cEDM : method R :=
  edm <- get_edm_e_cm ;;
  ret (cEDM_Hg edm).
End HgLimit.

Module XeLimit.
Definition theta_QCD : method R :=
  let Hg_factor := 7.4e-30 / 1.5e-10 in
  let Xe_Hg_factor := 10.0 in
  edm <- get_edm_e_cm ;;
  ret (edm * Xe_Hg_factor / Hg_factor).

Definition cEDM : method R :=
  edm <- get_edm_e_cm ;;
  let eff_d_Hg := edm * 10.0 in
  ret (cEDM_Hg eff_d_Hg).
End XeLimit.

Module TlFLimit.
Definition _schiff_limit : method R :=
  let Cho1991_Schiff_limit := 4e-10 in
  let Cho1991_TlF_EDM_limit := 2.9e-23 in
  let EDM_to_schiff_for_TlF := Cho1991_Schiff_limit / Cho1991_TlF_EDM_limit in
  edm <- get_edm_e_cm ;;
  ret (EDM_to_schiff_for_TlF * edm).

Definition theta_QCD : method R :=
  let theta_factor := 0.027 in
  s <- _schiff_limit ;;
  ret (s / theta_factor).

Definition cEDM : method R :=
  let cEDM_factor := 10 in
  s <- _schiff_limit ;;
  ret (s / cEDM_factor / 1e13).
End TlFLimit.

Module RaLimit.
Definition _schiff_limit : method R :=
  let kappa_s := 8.5e-4 in
  edm <- get_edm_e_cm ;;
  let edm_e_fm := edm * (1e15 / 1e2) in
  let schiff_moment_limit := edm_e_fm / kappa_s in
  ret schiff_moment_limit.

Definition theta_QCD : method R := _schiff_limit.

Definition _g1 : method R :=
  let a1 := 6.0 in
  let g := 13.5 in
  s <- _schiff_limit ;;
  let g1_limit := s / (a1 * g) in
  ret g1_limit.

Definition cEDM : method R :=
  g1 <- _g1 ;;
  ret (g1 / 2e14).
End RaLimit.

Module YbLimit.
Definition _schiff_limit : method R :=
  let kappa_s := 1.88e-4 in
  edm <- get_edm_e_cm ;;
  let edm_e_fm := edm * (1e15 / 1e2) in
  let schiff_moment_limit := edm_e_fm / kappa_s in
  ret schiff_moment_limit.

Definition theta_QCD : method R :=
  let theta_QCD_to_Schiff := 0.005 in
  s <- _schiff_limit ;;
  ret (s / theta_QCD_to_Schiff).

Definition cEDM : method R :=
  let d_Yb_equivalent_d_Hg := 0.6 in
  edm <- get_edm_e_cm ;;
  let eff_d_Hg := edm / d_Yb_equivalent_d_Hg in
  ret (cEDM_Hg eff_d_Hg).
End YbLimit.

End hadronic.

(** ** electron.py *)

Module electron.

(** [eEDMLimit] overrides nothing of [EDMLimit]; it adds two properties. *)
Module eEDMLimit.
Definition one_loop_mass_limit : method R :=
  edm <- get_edm_e_cm ;;
  q <- lift (true_div 1e-29 edm) ;;
  r <- lift (np_sqrt q) ;;
  ret (48 * r).

Definition two_loop_mass_limit : method R :=
  edm <- get_edm_e_cm ;;
  q <- lift (true_div 1e-29 edm) ;;
  r <- lift (np_sqrt q) ;;
  ret (2 * r).
End eEDMLimit.

End electron.

(** ** Attribute lookup along the class hierarchy

    [self.name] runs the property that the class of [self] defines or
    inherits; a class that has no such property raises AttributeError. *)

Definition as_float (m : method R) : method pyval :=
  x <- m ;; ret (PyFloat x).

(** The class-level tables: which property body a class has under a name. *)
Definition lookup_theta_QCD (k : klass) : method pyval :=
  match k with
  | EDMLimit_cls | eEDMLimit_cls => hadronic.EDMLimit.theta_QCD
  | NeutronLimit_cls => as_float hadronic.NeutronLimit.theta_QCD
  | HgLimit_cls => as_float hadronic.HgLimit.theta_QCD
  | XeLimit_cls => as_float hadronic.XeLimit.theta_QCD
  | TlFLimit_cls => as_float hadronic.TlFLimit.theta_QCD
  | RaLimit_cls => as_float hadronic.RaLimit.theta_QCD
  | YbLimit_cls => as_float hadronic.YbLimit.theta_QCD
  end.

Definition lookup_cEDM (k : klass) : method pyval :=
  match k with
  | EDMLimit_cls | eEDMLimit_cls => hadronic.EDMLimit.cEDM
  | NeutronLimit_cls => as_float hadronic.NeutronLimit.cEDM
  | HgLimit_cls => as_float hadronic.HgLimit.cEDM
  | XeLimit_cls => as_float hadronic.XeLimit.cEDM
  | TlFLimit_cls => as_float hadronic.TlFLimit.cEDM
  | RaLimit_cls => as_float hadronic.RaLimit.cEDM
  | YbLimit_cls => as_float hadronic.YbLimit.cEDM
  end.

Definition lookup__schiff_limit (k : klass) : method R :=
  match k with
  | TlFLimit_cls => hadronic.TlFLimit._schiff_limit
  | RaLimit_cls => hadronic.RaLimit._schiff_limit
  | YbLimit_cls => hadronic.YbLimit._schiff_limit
  | _ => raise AttributeError
  end.

Definition lookup__g1 (k : klass) : method R :=
  match k with
  | RaLimit_cls => hadronic.RaLimit._g1
  | _ => raise AttributeError
  end.

Definition lookup_one_loop_mass_limit (k : klass) : method R :=
  match k with
  | eEDMLimit_cls => electron.eEDMLimit.one_loop_mass_limit
  | _ => raise AttributeError
  end.

Definition lookup_two_loop_mass_limit (k : klass) : method R :=
  match k with
  | eEDMLimit_cls => electron.eEDMLimit.two_loop_mass_limit
  | _ => raise AttributeError
  end.

(** [self.theta_QCD], [self.cEDM], ... *)
Definition theta_QCD : method pyval :=
  fun self => lookup_theta_QCD (cls self) self.

Definition cEDM : method pyval :=
  fun self => lookup_cEDM (cls self) self.

Definition _schiff_limit : method R :=
  fun self => lookup__schiff_limit (cls self) self.

Definition _g1 : method R :=
  fun self => lookup__g1 (cls self) self.

Definition one_loop_mass_limit : method R :=
  fun self => lookup_one_loop_mass_limit (cls self) self.

Definition two_loop_mass_limit : method R :=
  fun self => lookup_two_loop_mass_limit (cls self) self.

(** [EDMLimit.new_particle_mass_from_cEDM], defined once in the base class
    and inherited by every other class; [self.cEDM] is looked up on the
    class of [self]. *)
Definition new_particle_mass_from_cEDM : method R :=
  d_q <- cEDM ;;
  lift (hadronic.chromo_EDM_limits_on_new_particle_mass d_q).

(** ** schiff.py *)

(** The constants that [scipy.constants] supplies. *)
Record scipy_constants : Type := {
  e_ : R;               (* _c.e *)
  hbar : R;             (* _c.hbar *)
  epsilon_0 : R;        (* _c.epsilon_0 *)
  Bohr_radius : R       (* _c.physical_constants["Bohr radius"][0] *)
}.

Module schiff.

Record MeasurementSettings : Type := {
  particle_number : R;
  efficiency : R;
  measurement_time : R;
  down_time : R;
  coherence_time : R
}.

(** [MeasurementSettings()] *)
Definition MeasurementSettings_default : MeasurementSettings :=
  {| particle_number := 1;
     efficiency := 0.99;
     measurement_time := 864000;
     down_time := 30e-3;
     coherence_time := 100 |}.

Definition frequency_sensitivity_Hz (measurement_settings : MeasurementSettings)
  : result R :=
  let ms := measurement_settings in
  let T_total := measurement_time ms in
  let T_down := down_time ms in
  let tau := coherence_time ms in
  let beta := efficiency ms in
  let N := particle_number ms in
  let prefactor := 2 * PI * tau * beta in
  q <- true_div (N * T_total) (tau + T_down) ;;
  r <- np_sqrt q ;;
  let denominator := prefactor * r in
  true_div 1 denominator.

Record Molecule : Type := {
  W_S : R;
  K_S : R;
  a_0 : R;
  a_1 : R;
  a_2 : R;
  molecule_name : option string;
  nucleus_E_field_alignment : R
}.

(** [Molecule.__init__] *)
Definition Molecule_init (W_S0 K_S0 a_00 a_10 a_20 : R) : Molecule :=
  {| W_S := W_S0;
     K_S := K_S0;
     a_0 := a_00;
     a_1 := a_10;
     a_2 := a_20;
     molecule_name := None;
     nucleus_E_field_alignment := 0.25 |}.

(** [Molecule()] *)
Definition Molecule_default : Molecule :=
  Molecule_init 45000 1.0 (-1.5) 6.0 (-4.0).

Definition _g_pi_NN_to_Schiff_prefactor : R :=
  let delta_u_p := 0.746 in
  let delta_u_n := -0.508 in
  let g_A := delta_u_p - delta_u_n in
  let F_pi := 185 in
  let m_N := 995 in
  2.0 * m_N * g_A / F_pi.

(** The default of the argument [d_q]. *)
Definition d_q_default : R := 1e-27.

Definition chromo_EDM_limits_on_new_particle_mass (d_q : pyval) : result R :=
  let alpha := 1 / 137 in
  let m_q := 5 in
  let prefactor := alpha * m_q / PI in
  let cm_to_fm := 10 ^ 15 / 10 ^ 2 in
  d_q_fm <- py_mul d_q cm_to_fm ;;
  let fm_to_inv_MeV := 1 / 197 in
  let d_q_inv_MeV := d_q_fm * fm_to_inv_MeV in
  let MeV_to_TeV := (1.0 / 1e-6) * (1e-12 / 1.0) in
  q <- true_div (prefactor * 1) d_q_inv_MeV ;;
  r <- np_sqrt q ;;
  ret (MeV_to_TeV * r).

Section WithConstants.

Variable _c : scipy_constants.

Definition schiff_SI (self : Molecule) : R :=
  let fm := 1e-15 in
  let Schiff_au_to_SI := e_ _c * fm ^ 3 in
  Schiff_au_to_SI * K_S self.

Definition W_S_SI (self : Molecule) : R :=
  let bohr_radius := Bohr_radius _c in
  let electric_const := 4.0 * PI * epsilon_0 _c in
  let W_S_au_to_SI := e_ _c / (electric_const * bohr_radius ^ 4) in
  W_S_au_to_SI * W_S self.

Definition theta_QCD_sensitivity (measurement_settings : MeasurementSettings)
    (molecule : Molecule) : result R :=
  f <- frequency_sensitivity_Hz measurement_settings ;;
  let delta_omega := 2 * PI * f in
  let S := schiff_SI molecule in
  let W_S := W_S_SI molecule in
  let opposite_state_enhancement := 2 in
  orientation_enhancement <-
    true_div 1.0 (opposite_state_enhancement * nucleus_E_field_alignment molecule) ;;
  true_div (orientation_enhancement * hbar _c * delta_omega) (W_S * S).

Definition schiff_moment_sensitivity (measurement_settings : MeasurementSettings)
    (molecule : Molecule) : result R :=
  theta_limit <- theta_QCD_sensitivity measurement_settings molecule ;;
  ret (K_S molecule * theta_limit).

Definition g_0_sensitivity (measurement_settings : MeasurementSettings)
    (molecule : Molecule) : result R :=
  schiff_limit <- schiff_moment_sensitivity measurement_settings molecule ;;
  let prefactor := _g_pi_NN_to_Schiff_prefactor in
  q <- true_div schiff_limit (prefactor * a_0 molecule) ;;
  ret (Rabs q).

Definition g_1_sensitivity (measurement_settings : MeasurementSettings)
    (molecule : Molecule) : result R :=
  schiff_limit <- schiff_moment_sensitivity measurement_settings molecule ;;
  let prefactor := _g_pi_NN_to_Schiff_prefactor in
  true_div schiff_limit (prefactor * a_1 molecule).

Definition g_2_sensitivity (measurement_settings : MeasurementSettings)
    (molecule : Molecule) : result R :=
  schiff_limit <- schiff_moment_sensitivity measurement_settings molecule ;;
  let prefactor := _g_pi_NN_to_Schiff_prefactor in
  q <- true_div schiff_limit (prefactor * a_2 molecule) ;;
  ret (Rabs q).

Definition up_down_quark_difference_chromo_EDM_sensitivity
    (measurement_settings : MeasurementSettings) (molecule : Molecule)
  : result R :=
  let quark_chromo_factor := 2e14 in
  g_1_limit <- g_1_sensitivity measurement_settings molecule ;;
  let d_u_minus_d_d := g_1_limit / quark_chromo_factor in
  ret d_u_minus_d_d.

Definition radium_225_EDM_sensitivity (measurement_settings : MeasurementSettings)
    (molecule : Molecule) : result R :=
  schiff_limit <- schiff_moment_sensitivity measurement_settings molecule ;;
  ret (Rabs (-8.5e-17 * schiff_limit)).

End WithConstants.

End schiff.

(** * Properties *)

(** ** Numeric brackets *)

Lemma PI_bounds : 3.1415 < PI < 3.1421.
Proof.
  pose proof (PI_2_3_7_ineq 1) as [Hlo Hhi].
  cbn [Nat.mul Nat.add sum_f_R0] in Hlo, Hhi.
  unfold tg_alt, PI_2_3_7_tg, Ratan_seq in Hlo, Hhi.
  cbn [Nat.mul Nat.add pow INR] in Hlo, Hhi.
  split; lra.
Qed.

(** Square roots are bracketed by squaring. *)
Lemma sqrt_between (x lo hi : R) :
  0 <= lo -> 0 <= hi -> lo * lo < x -> x < hi * hi -> lo < sqrt x < hi.
Proof.
  intros Hlo Hhi H1 H2.
  assert (Hx : 0 <= x) by nra.
  split.
  - rewrite <- (sqrt_square lo) by assumption.
    apply sqrt_lt_1_alt. split; [nra | assumption].
  - rewrite <- (sqrt_square hi) by assumption.
    apply sqrt_lt_1_alt. split; assumption.
Qed.

(** ** The partial operations on their domains *)

Lemma true_div_ok (x y : R) : y <> 0 -> true_div x y = Ok (x / y).
Proof.
  intros Hy. unfold true_div.
  destruct (Req_dec_T y 0) as [E | _]; [contradiction | reflexivity].
Qed.

Lemma true_div_zero (x : R) : true_div x 0 = Raise ZeroDivisionError.
Proof.
  unfold true_div.
  destruct (Req_dec_T 0 0) as [_ | N]; [reflexivity | now elim N].
Qed.

Lemma np_sqrt_ok (x : R) : 0 <= x -> np_sqrt x = Ok (sqrt x).
Proof.
  intros Hx. unfold np_sqrt.
  destruct (Rlt_dec x 0) as [L | _]; [lra | reflexivity].
Qed.

Lemma np_sqrt_negative (x : R) : x < 0 -> np_sqrt x = Raise InvalidValue.
Proof.
  intros Hx. unfold np_sqrt.
  destruct (Rlt_dec x 0) as [_ | N]; [reflexivity | contradiction].
Qed.

(** ** Running a property on a constructed object *)

Lemma construct_fields (k : klass) (y : Z) (b : R) (r : string) :
  construct k y b r = mkInstance k (Some y) (Some b) (Some r).
Proof. reflexivity. Qed.

(** Unfolds a property of the hierarchy down to the arithmetic on the bound. *)
Ltac run_property :=
  cbv [value_of object_after construct __init__
       theta_QCD cEDM _schiff_limit _g1 as_float raise lift
       lookup_theta_QCD lookup_cEDM lookup__schiff_limit lookup__g1
       hadronic.EDMLimit.theta_QCD hadronic.EDMLimit.cEDM
       hadronic.NeutronLimit.theta_QCD hadronic.NeutronLimit.cEDM
       hadronic.HgLimit.theta_QCD hadronic.HgLimit.cEDM
       hadronic.XeLimit.theta_QCD hadronic.XeLimit.cEDM
       hadronic.TlFLimit.theta_QCD hadronic.TlFLimit.cEDM
       hadronic.TlFLimit._schiff_limit
       hadronic.RaLimit.theta_QCD hadronic.RaLimit.cEDM
       hadronic.RaLimit._schiff_limit hadronic.RaLimit._g1
       hadronic.YbLimit.theta_QCD hadronic.YbLimit.cEDM
       hadronic.YbLimit._schiff_limit
       hadronic.cEDM_Hg
       get_edm_e_cm bind ret method_monad cls edm_e_cm fst snd].

(** Closes [Ok (PyFloat a) = Ok (PyFloat b)] and [Ok a = Ok b] by arithmetic. *)
Ltac same_float :=
  repeat (apply f_equal); lra.

(** The theta_QCD and chromo-EDM conversions are linear in the bound; the
    two tables below collect the slopes of the six hadronic classes. *)
Definition theta_QCD_slope (k : klass) : R :=
  match k with
  | NeutronLimit_cls => 1 / (0.0039 * (1e2 / 1e15))
  | HgLimit_cls => 1.5e-10 / 7.4e-30
  | XeLimit_cls => 10 * (1.5e-10 / 7.4e-30)
  | TlFLimit_cls => 4e-10 / 2.9e-23 / 0.027
  | RaLimit_cls => 1e13 / 8.5e-4
  | YbLimit_cls => 1e13 / 1.88e-4 / 0.005
  | EDMLimit_cls | eEDMLimit_cls => 0
  end.

Definition cEDM_slope (k : klass) : R :=
  match k with
  | NeutronLimit_cls => 1 / 0.55
  | HgLimit_cls => 5.7e-27 / 7.4e-30
  | XeLimit_cls => 10 * (5.7e-27 / 7.4e-30)
  | TlFLimit_cls => 4e-10 / 2.9e-23 / 10 / 1e13
  | RaLimit_cls => 1e13 / 8.5e-4 / (6.0 * 13.5) / 2e14
  | YbLimit_cls => 5.7e-27 / 7.4e-30 / 0.6
  | EDMLimit_cls | eEDMLimit_cls => 0
  end.

Lemma theta_QCD_linear (k : klass) (y : Z) (b : R) (r : string) :
  hadronic_cls k = true ->
  value_of theta_QCD (construct k y b r) = Ok (PyFloat (theta_QCD_slope k * b)).
Proof.
  intros Hk. destruct k; try discriminate Hk;
    run_property; cbv [theta_QCD_slope]; same_float.
Qed.

Lemma cEDM_linear (k : klass) (y : Z) (b : R) (r : string) :
  hadronic_cls k = true ->
  value_of cEDM (construct k y b r) = Ok (PyFloat (cEDM_slope k * b)).
Proof.
  intros Hk. destruct k; try discriminate Hk;
    run_property; cbv [cEDM_slope]; same_float.
Qed.

Lemma theta_QCD_slope_pos (k : klass) :
  hadronic_cls k = true -> 0 < theta_QCD_slope k.
Proof.
  intros Hk. destruct k; try discriminate Hk; cbv [theta_QCD_slope]; lra.
Qed.

Lemma cEDM_slope_pos (k : klass) :
  hadronic_cls k = true -> 0 < cEDM_slope k.
Proof.
  intros Hk. destruct k; try discriminate Hk; cbv [cEDM_slope]; lra.
Qed.

(** ** The per-system conversions *)

(** C1.  For each of the six hadronic classes and every bound [b], theta_QCD,
    the chromo-EDM and (TlF, Ra, Yb) the Schiff limit are the formulas of
    the conversion table; [NeutronLimit(2020, 1e-26, "x")] has chromo-EDM
    [1e-26 / 0.55]. *)
Theorem per_system_conversions (y : Z) (b : R) (r : string) :
  let Hg_rule d := d * (5.7e-27 / 7.4e-30) in
  let schiff_TlF := 4e-10 / 2.9e-23 * b in
  let schiff_Ra := b * 1e13 / 8.5e-4 in
  let schiff_Yb := b * 1e13 / 1.88e-4 in
  (value_of theta_QCD (construct NeutronLimit_cls y b r)
     = Ok (PyFloat (b / (0.0039 * (1e2 / 1e15))))
   /\ value_of cEDM (construct NeutronLimit_cls y b r)
     = Ok (PyFloat (b / 0.55)))
  /\ (value_of theta_QCD (construct HgLimit_cls y b r)
        = Ok (PyFloat (b / (7.4e-30 / 1.5e-10)))
      /\ value_of cEDM (construct HgLimit_cls y b r)
        = Ok (PyFloat (b * (5.7e-27 / 7.4e-30))))
  /\ (value_of theta_QCD (construct XeLimit_cls y b r)
        = Ok (PyFloat (b * 10 * (1.5e-10 / 7.4e-30)))
      /\ value_of cEDM (construct XeLimit_cls y b r)
        = Ok (PyFloat (Hg_rule (b * 10))))
  /\ (value_of _schiff_limit (construct TlFLimit_cls y b r) = Ok schiff_TlF
      /\ value_of theta_QCD (construct TlFLimit_cls y b r)
        = Ok (PyFloat (schiff_TlF / 0.027))
      /\ value_of cEDM (construct TlFLimit_cls y b r)
        = Ok (PyFloat (schiff_TlF / 10 / 1e13)))
  /\ (value_of _schiff_limit (construct RaLimit_cls y b r) = Ok schiff_Ra
      /\ value_of theta_QCD (construct RaLimit_cls y b r)
        = Ok (PyFloat schiff_Ra)
      /\ value_of cEDM (construct RaLimit_cls y b r)
        = Ok (PyFloat (schiff_Ra / (6.0 * 13.5) / 2e14)))
  /\ (value_of _schiff_limit (construct YbLimit_cls y b r) = Ok schiff_Yb
      /\ value_of theta_QCD (construct YbLimit_cls y b r)
        = Ok (PyFloat (schiff_Yb / 0.005))
      /\ value_of cEDM (construct YbLimit_cls y b r)
        = Ok (PyFloat (Hg_rule (b / 0.6))))
  /\ value_of cEDM (construct NeutronLimit_cls 2020 1e-26 "x")
     = Ok (PyFloat (1e-26 / 0.55)).
Proof.
  intros Hg_rule schiff_TlF schiff_Ra schiff_Yb.
  subst Hg_rule schiff_TlF schiff_Ra schiff_Yb.
  repeat split; run_property; same_float.
Qed.

(** At [NeutronLimit(2020, 1e-26, "x")]: the chromo-EDM is [1e-26 / 0.55]
    and the Schiff limit is not an attribute of the class. *)
Example neutron_2020 :
  value_of cEDM (construct NeutronLimit_cls 2020 1e-26 "x") = Ok (PyFloat (1e-26 / 0.55))
  /\ value_of _schiff_limit (construct NeutronLimit_cls 2020 1e-26 "x")
     = Raise AttributeError.
Proof. split; reflexivity. Qed.

(** ** The sign of the bound *)

(** C6, as stated, fails: for the neutron class the conversions at the bound
    [-1e-26] differ from those at its absolute value. *)
Lemma absolute_value_not_taken :
  value_of theta_QCD (construct NeutronLimit_cls 2020 (-1e-26) "x")
    <> value_of theta_QCD (construct NeutronLimit_cls 2020 (Rabs (-1e-26)) "x")
  /\ value_of cEDM (construct NeutronLimit_cls 2020 (-1e-26) "x")
    <> value_of cEDM (construct NeutronLimit_cls 2020 (Rabs (-1e-26)) "x").
Proof.
  assert (A : Rabs (-1e-26) = 1e-26) by (rewrite Rabs_left; lra).
  rewrite A.
  split; run_property; intros E; injection E as E; lra.
Qed.

(** C6, amended.  For each hadronic class the conversions take no absolute
    value: theta_QCD and the chromo-EDM are linear in the bound, each with a
    positive slope.  So the value at [-b] is the opposite of the value at
    [b], the value at [|b|] is the absolute value of the value at [b], and
    the value at [|b|] equals the value at [b] exactly when [0 <= b]. *)
Theorem sign_passes_through (k : klass) (y : Z) (r : string) :
  hadronic_cls k = true ->
  exists s s' : R,
    0 < s /\ 0 < s'
    /\ forall b : R,
         value_of theta_QCD (construct k y b r) = Ok (PyFloat (s * b))
         /\ value_of cEDM (construct k y b r) = Ok (PyFloat (s' * b))
         /\ value_of theta_QCD (construct k y (- b) r)
            = Ok (PyFloat (- (s * b)))
         /\ value_of cEDM (construct k y (- b) r)
            = Ok (PyFloat (- (s' * b)))
         /\ value_of theta_QCD (construct k y (Rabs b) r)
            = Ok (PyFloat (Rabs (s * b)))
         /\ value_of cEDM (construct k y (Rabs b) r)
            = Ok (PyFloat (Rabs (s' * b)))
         /\ (value_of theta_QCD (construct k y (Rabs b) r)
             = value_of theta_QCD (construct k y b r) <-> 0 <= b)
         /\ (value_of cEDM (construct k y (Rabs b) r)
             = value_of cEDM (construct k y b r) <-> 0 <= b).
Proof.
  intros Hk.
  pose proof (theta_QCD_slope_pos k Hk) as Ht.
  pose proof (cEDM_slope_pos k Hk) as Hc.
  exists (theta_QCD_slope k), (cEDM_slope k).
  split; [exact Ht | split; [exact Hc |]].
  intros b.
  assert (Same : forall s : R, 0 < s ->
            (Ok (PyFloat (s * Rabs b)) = Ok (PyFloat (s * b)) <-> 0 <= b)).
  { intros s Hs. split.
    - intros E. injection E as E.
      apply Rmult_eq_reg_l in E; [| lra].
      rewrite <- E. apply Rabs_pos.
    - intros Hb. now rewrite Rabs_pos_eq. }
  rewrite !theta_QCD_linear, !cEDM_linear by assumption.
  rewrite !Rabs_mult, (Rabs_pos_eq (theta_QCD_slope k)),
    (Rabs_pos_eq (cEDM_slope k)) by lra.
  repeat (split; [same_float |]).
  split; apply Same; assumption.
Qed.

Lemma sign_passes_through_witness :
  exists s s' : R,
    0 < s /\ 0 < s'
    /\ value_of theta_QCD (construct HgLimit_cls 2016 7.4e-30 "Graner2016")
       = Ok (PyFloat (s * 7.4e-30))
    /\ value_of cEDM (construct HgLimit_cls 2016 7.4e-30 "Graner2016")
       = Ok (PyFloat (s' * 7.4e-30))
    /\ value_of theta_QCD (construct HgLimit_cls 2016 (- (7.4e-30)) "Graner2016")
       = Ok (PyFloat (- (s * 7.4e-30)))
    /\ value_of cEDM (construct HgLimit_cls 2016 (- (7.4e-30)) "Graner2016")
       = Ok (PyFloat (- (s' * 7.4e-30)))
    /\ (value_of theta_QCD (construct HgLimit_cls 2016 (Rabs (- (7.4e-30))) "Graner2016")
        = value_of theta_QCD (construct HgLimit_cls 2016 (- (7.4e-30)) "Graner2016")
        <-> 0 <= - (7.4e-30)).
Proof.
  destruct (sign_passes_through HgLimit_cls 2016 "Graner2016" eq_refl)
    as (s & s' & Hs & Hs' & H).
  exists s, s'.
  destruct (H 7.4e-30) as (T & C & Tn & Cn & _).
  destruct (H (- (7.4e-30))) as (_ & _ & _ & _ & _ & _ & Ti & _).
  repeat (split; [assumption |]). exact Ti.
Defined.

(** ** The classes without a conversion *)

Definition raises {A : Type} (m : method A) (self : instance) : Prop :=
  exists e : exn, value_of m self = Raise e.

(** C3, as stated, fails: on an [EDMLimit] and on an [eEDMLimit] object the
    queries raise nothing. *)
Lemma base_queries_do_not_raise :
  ~ raises theta_QCD (construct EDMLimit_cls 2020 1e-26 "x")
  /\ ~ raises cEDM (construct EDMLimit_cls 2020 1e-26 "x")
  /\ ~ raises cEDM (construct eEDMLimit_cls 2018 1.1e-29 "ACME2018").
Proof.
  repeat split; intros [e E]; discriminate E.
Qed.

(** C3, amended.  On an object of the base class or of the electron class,
    theta_QCD and the chromo-EDM evaluate to None: no exception is raised
    and no number is returned. *)
Theorem base_queries_return_None (self : instance) :
  cls self = EDMLimit_cls \/ cls self = eEDMLimit_cls ->
  theta_QCD self = (Ok PyNone, self) /\ cEDM self = (Ok PyNone, self).
Proof.
  intros [E | E]; unfold theta_QCD, cEDM; rewrite E; split; reflexivity.
Qed.

Lemma base_queries_return_None_witness :
  theta_QCD (construct eEDMLimit_cls 2018 1.1e-29 "ACME2018")
    = (Ok PyNone, construct eEDMLimit_cls 2018 1.1e-29 "ACME2018")
  /\ cEDM (construct eEDMLimit_cls 2018 1.1e-29 "ACME2018")
    = (Ok PyNone, construct eEDMLimit_cls 2018 1.1e-29 "ACME2018").
Proof.
  apply (base_queries_return_None (construct eEDMLimit_cls 2018 1.1e-29 "ACME2018")).
  right. reflexivity.
Defined.

(** C9.  On an object of the base class or of the electron class the
    inherited [new_particle_mass_from_cEDM] raises TypeError: the chromo-EDM
    is None, and the mass-scale function multiplies it by a float. *)
Theorem mass_from_cEDM_type_error (self : instance) :
  cls self = EDMLimit_cls \/ cls self = eEDMLimit_cls ->
  value_of cEDM self = Ok PyNone
  /\ hadronic.chromo_EDM_limits_on_new_particle_mass PyNone = Raise TypeError
  /\ new_particle_mass_from_cEDM self = (Raise TypeError, self).
Proof.
  intros H.
  assert (Hc : cEDM self = (Ok PyNone, self))
    by (destruct H as [E | E]; unfold cEDM; rewrite E; reflexivity).
  split; [| split].
  - unfold value_of. now rewrite Hc.
  - reflexivity.
  - unfold new_particle_mass_from_cEDM. cbn [bind method_monad].
    rewrite Hc. reflexivity.
Qed.

Lemma mass_from_cEDM_type_error_witness :
  value_of cEDM (construct eEDMLimit_cls 2018 1.1e-29 "ACME2018") = Ok PyNone
  /\ hadronic.chromo_EDM_limits_on_new_particle_mass PyNone = Raise TypeError
  /\ new_particle_mass_from_cEDM (construct eEDMLimit_cls 2018 1.1e-29 "ACME2018")
     = (Raise TypeError, construct eEDMLimit_cls 2018 1.1e-29 "ACME2018").
Proof.
  apply (mass_from_cEDM_type_error (construct eEDMLimit_cls 2018 1.1e-29 "ACME2018")).
  right. reflexivity.
Defined.

(** ** Properties leave the object as it is *)

(** A property is immutable when running it hands [self] back unchanged and
    its outcome is determined by the class and the stored bound. *)
Definition immutable_under {A : Type} (m : method A) : Prop :=
  (forall self, object_after m self = self)
  /\ (forall s1 s2, cls s1 = cls s2 -> edm_e_cm s1 = edm_e_cm s2 ->
        value_of m s1 = value_of m s2).

Create HintDb frame.

Lemma immutable_ret {A : Type} (a : A) : immutable_under (ret a).
Proof. split; intros; reflexivity. Qed.

Lemma immutable_lift {A : Type} (r : result A) : immutable_under (lift r).
Proof. split; intros; reflexivity. Qed.

Lemma immutable_raise {A : Type} (e : exn) : immutable_under (@raise A e).
Proof. apply immutable_lift. Qed.

Lemma immutable_get_edm_e_cm : immutable_under get_edm_e_cm.
Proof.
  split.
  - intros self. unfold object_after, get_edm_e_cm.
    destruct (edm_e_cm self); reflexivity.
  - intros s1 s2 _ He. unfold value_of, get_edm_e_cm.
    rewrite He. destruct (edm_e_cm s2); reflexivity.
Qed.

Lemma immutable_bind {A B : Type} (m : method A) (k : A -> method B) :
  immutable_under m -> (forall a, immutable_under (k a)) ->
  immutable_under (bind m k).
Proof.
  intros [Fm Dm] Hk. split.
  - intros self. specialize (Fm self).
    unfold object_after in *. cbn [bind method_monad].
    destruct (m self) as [[a | e] s']; cbn [snd] in Fm; subst s'.
    + apply (proj1 (Hk a)).
    + reflexivity.
  - intros s1 s2 Hc He.
    pose proof (Fm s1) as F1. pose proof (Fm s2) as F2.
    pose proof (Dm s1 s2 Hc He) as D.
    unfold value_of, object_after in *. cbn [bind method_monad].
    destruct (m s1) as [[a1 | e1] s1'], (m s2) as [[a2 | e2] s2'];
      cbn [fst snd] in *; subst; try discriminate D.
    + injection D as ->. now apply (proj2 (Hk a2)).
    + injection D as ->. reflexivity.
Qed.

Lemma immutable_as_float (m : method R) :
  immutable_under m -> immutable_under (as_float m).
Proof.
  intros H. unfold as_float.
  apply immutable_bind; [exact H | intros; apply immutable_ret].
Qed.

(** Lookup by class: each branch runs an immutable property. *)
Lemma immutable_lookup {A : Type} (table : klass -> method A) :
  (forall k, immutable_under (table k)) ->
  immutable_under (fun self => table (cls self) self).
Proof.
  intros H. split.
  - intros self. apply (proj1 (H (cls self))).
  - intros s1 s2 Hc He. unfold value_of. rewrite Hc.
    now apply (proj2 (H (cls s2))).
Qed.

#[local] Hint Resolve immutable_ret immutable_lift immutable_raise
  immutable_get_edm_e_cm immutable_as_float : frame.
#[local] Hint Extern 2 (immutable_under (bind _ _)) =>
  apply immutable_bind; [| intros] : frame.

Ltac frame_body := cbv zeta; auto 12 with frame.

Lemma immutable_Neutron :
  immutable_under hadronic.NeutronLimit.theta_QCD
  /\ immutable_under hadronic.NeutronLimit.cEDM.
Proof.
  split; [unfold hadronic.NeutronLimit.theta_QCD
         | unfold hadronic.NeutronLimit.cEDM]; frame_body.
Qed.

Lemma immutable_Hg :
  immutable_under hadronic.HgLimit.theta_QCD
  /\ immutable_under hadronic.HgLimit.cEDM.
Proof.
  split; [unfold hadronic.HgLimit.theta_QCD
         | unfold hadronic.HgLimit.cEDM]; frame_body.
Qed.

Lemma immutable_Xe :
  immutable_under hadronic.XeLimit.theta_QCD
  /\ immutable_under hadronic.XeLimit.cEDM.
Proof.
  split; [unfold hadronic.XeLimit.theta_QCD
         | unfold hadronic.XeLimit.cEDM]; frame_body.
Qed.

Lemma immutable_TlF :
  immutable_under hadronic.TlFLimit._schiff_limit
  /\ immutable_under hadronic.TlFLimit.theta_QCD
  /\ immutable_under hadronic.TlFLimit.cEDM.
Proof.
  assert (S : immutable_under hadronic.TlFLimit._schiff_limit)
    by (unfold hadronic.TlFLimit._schiff_limit; frame_body).
  split; [exact S | split];
    [unfold hadronic.TlFLimit.theta_QCD | unfold hadronic.TlFLimit.cEDM];
    frame_body.
Qed.

Lemma immutable_Ra :
  immutable_under hadronic.RaLimit._schiff_limit
  /\ immutable_under hadronic.RaLimit._g1
  /\ immutable_under hadronic.RaLimit.theta_QCD
  /\ immutable_under hadronic.RaLimit.cEDM.
Proof.
  assert (S : immutable_under hadronic.RaLimit._schiff_limit)
    by (unfold hadronic.RaLimit._schiff_limit; frame_body).
  assert (G : immutable_under hadronic.RaLimit._g1)
    by (unfold hadronic.RaLimit._g1; frame_body).
  split; [exact S | split; [exact G | split; [exact S |]]].
  unfold hadronic.RaLimit.cEDM.
  apply immutable_bind; [exact G | intros; apply immutable_ret].
Qed.

Lemma immutable_Yb :
  immutable_under hadronic.YbLimit._schiff_limit
  /\ immutable_under hadronic.YbLimit.theta_QCD
  /\ immutable_under hadronic.YbLimit.cEDM.
Proof.
  assert (S : immutable_under hadronic.YbLimit._schiff_limit)
    by (unfold hadronic.YbLimit._schiff_limit; frame_body).
  split; [exact S | split];
    [unfold hadronic.YbLimit.theta_QCD | unfold hadronic.YbLimit.cEDM];
    frame_body.
Qed.

Lemma immutable_electron :
  immutable_under electron.eEDMLimit.one_loop_mass_limit
  /\ immutable_under electron.eEDMLimit.two_loop_mass_limit.
Proof.
  split; [unfold electron.eEDMLimit.one_loop_mass_limit
         | unfold electron.eEDMLimit.two_loop_mass_limit]; frame_body.
Qed.

Lemma immutable_theta_QCD : immutable_under theta_QCD.
Proof.
  apply (immutable_lookup lookup_theta_QCD).
  destruct immutable_Neutron as [? _], immutable_Hg as [? _],
    immutable_Xe as [? _], immutable_TlF as (_ & ? & _),
    immutable_Ra as (_ & _ & ? & _), immutable_Yb as (_ & ? & _).
  intros []; cbn [lookup_theta_QCD]; auto with frame;
    apply immutable_ret.
Qed.

Lemma immutable_cEDM : immutable_under cEDM.
Proof.
  apply (immutable_lookup lookup_cEDM).
  destruct immutable_Neutron as [_ ?], immutable_Hg as [_ ?],
    immutable_Xe as [_ ?], immutable_TlF as (_ & _ & ?),
    immutable_Ra as (_ & _ & _ & ?), immutable_Yb as (_ & _ & ?).
  intros []; cbn [lookup_cEDM]; auto with frame;
    apply immutable_ret.
Qed.

(** C8.  Evaluating a derived property (theta_QCD, the chromo-EDM, the
    Schiff limit and g1 helpers, the mass scale from the chromo-EDM, the
    electron one- and two-loop mass limits) on any object returns the
    object with [year], [edm_e_cm] and [ref] as they were, and the outcome
    depends on the class and on [edm_e_cm] only. *)
Theorem properties_leave_fields_unchanged :
  immutable_under theta_QCD
  /\ immutable_under cEDM
  /\ immutable_under _schiff_limit
  /\ immutable_under _g1
  /\ immutable_under new_particle_mass_from_cEDM
  /\ immutable_under one_loop_mass_limit
  /\ immutable_under two_loop_mass_limit.
Proof.
  split; [exact immutable_theta_QCD |].
  split; [exact immutable_cEDM |].
  split.
  { apply (immutable_lookup lookup__schiff_limit).
    destruct immutable_TlF as [? _], immutable_Ra as [? _],
      immutable_Yb as [? _].
    intros []; cbn [lookup__schiff_limit]; auto with frame. }
  split.
  { apply (immutable_lookup lookup__g1).
    destruct immutable_Ra as (_ & ? & _).
    intros []; cbn [lookup__g1]; auto with frame. }
  split.
  { unfold new_particle_mass_from_cEDM.
    apply immutable_bind; [exact immutable_cEDM | intros; apply immutable_lift]. }
  destruct immutable_electron as [H1 H2].
  split.
  - apply (immutable_lookup lookup_one_loop_mass_limit).
    intros []; cbn [lookup_one_loop_mass_limit]; auto with frame.
  - apply (immutable_lookup lookup_two_loop_mass_limit).
    intros []; cbn [lookup_two_loop_mass_limit]; auto with frame.
Qed.

Lemma properties_leave_fields_unchanged_witness :
  object_after theta_QCD (construct RaLimit_cls 2016 1.4e-23 "Bishof2016")
    = construct RaLimit_cls 2016 1.4e-23 "Bishof2016"
  /\ value_of theta_QCD (construct RaLimit_cls 2016 1.4e-23 "Bishof2016")
     = value_of theta_QCD (construct RaLimit_cls 2015 1.4e-23 "Parker2015").
Proof.
  destruct properties_leave_fields_unchanged as [[F D] _].
  split.
  - exact (F (construct RaLimit_cls 2016 1.4e-23 "Bishof2016")).
  - apply (D (construct RaLimit_cls 2016 1.4e-23 "Bishof2016")
             (construct RaLimit_cls 2015 1.4e-23 "Parker2015"));
      reflexivity.
Defined.

(** [__init__] is where the fields are written. *)
Lemma init_writes_fields (y : Z) (b : R) (r : string) (self : instance) :
  let self' := object_after (__init__ y b r) self in
  cls self' = cls self /\ year self' = Some y
  /\ edm_e_cm self' = Some b /\ ref self' = Some r.
Proof. repeat split. Qed.

(** ** The mass scale from a chromo-EDM *)

Lemma mass_copies_agree (d_q : pyval) :
  schiff.chromo_EDM_limits_on_new_particle_mass d_q
  = hadronic.chromo_EDM_limits_on_new_particle_mass d_q.
Proof. reflexivity. Qed.

(** C4.  For each hadronic class the property [new_particle_mass_from_cEDM]
    is the mass-scale function applied to the chromo-EDM of the object,
    whichever of the two copies of the function is chained by hand; and the
    two copies agree on every argument. *)
Theorem mass_round_trip (k : klass) (y : Z) (b : R) (r : string) :
  hadronic_cls k = true ->
  (exists d : R,
      value_of cEDM (construct k y b r) = Ok (PyFloat d)
      /\ value_of new_particle_mass_from_cEDM (construct k y b r)
         = schiff.chromo_EDM_limits_on_new_particle_mass (PyFloat d)
      /\ value_of new_particle_mass_from_cEDM (construct k y b r)
         = hadronic.chromo_EDM_limits_on_new_particle_mass (PyFloat d))
  /\ (forall d_q : pyval,
        schiff.chromo_EDM_limits_on_new_particle_mass d_q
        = hadronic.chromo_EDM_limits_on_new_particle_mass d_q).
Proof.
  intros Hk. split; [| exact mass_copies_agree].
  exists (cEDM_slope k * b).
  pose proof (cEDM_linear k y b r Hk) as Hc.
  pose proof (proj1 immutable_cEDM (construct k y b r)) as Hf.
  assert (Hrun : cEDM (construct k y b r)
                 = (Ok (PyFloat (cEDM_slope k * b)), construct k y b r)).
  { unfold value_of in Hc. unfold object_after in Hf.
    destruct (cEDM (construct k y b r)) as [v s]. cbn [fst snd] in *.
    now subst. }
  split; [exact Hc |].
  rewrite mass_copies_agree.
  assert (E : value_of new_particle_mass_from_cEDM (construct k y b r)
              = hadronic.chromo_EDM_limits_on_new_particle_mass
                  (PyFloat (cEDM_slope k * b))).
  { unfold value_of, new_particle_mass_from_cEDM. cbn [bind method_monad].
    rewrite Hrun. reflexivity. }
  split; exact E.
Qed.

Lemma mass_round_trip_witness :
  exists d : R,
    value_of cEDM (construct NeutronLimit_cls 2020 1e-26 "x") = Ok (PyFloat d)
    /\ value_of new_particle_mass_from_cEDM (construct NeutronLimit_cls 2020 1e-26 "x")
       = schiff.chromo_EDM_limits_on_new_particle_mass (PyFloat d)
    /\ value_of new_particle_mass_from_cEDM (construct NeutronLimit_cls 2020 1e-26 "x")
       = hadronic.chromo_EDM_limits_on_new_particle_mass (PyFloat d).
Proof.
  apply (mass_round_trip NeutronLimit_cls 2020 1e-26 "x").
  reflexivity.
Defined.

(** The radicand of the mass-scale function at a chromo-EDM [d_q]. *)
Definition mass_radicand (d_q : R) : R :=
  1 / 137 * 5 / PI * 1 / (d_q * (10 ^ 15 / 10 ^ 2) * (1 / 197)).

Lemma mass_radicand_pos (d_q : R) : 0 < d_q -> 0 < mass_radicand d_q.
Proof.
  intros Hd. unfold mass_radicand.
  pose proof PI_RGT_0 as Hpi.
  apply Rdiv_lt_0_compat.
  - apply Rmult_lt_0_compat; [| lra].
    apply Rdiv_lt_0_compat; lra.
  - apply Rmult_lt_0_compat; [| lra].
    apply Rmult_lt_0_compat; lra.
Qed.

Lemma mass_radicand_scale (k d_q : R) :
  0 < d_q -> 0 < k -> mass_radicand (k * d_q) = mass_radicand d_q / k.
Proof.
  intros Hd Hk. unfold mass_radicand.
  pose proof PI_RGT_0 as Hpi.
  field. repeat split; lra.
Qed.

(** On a positive chromo-EDM the function returns a number. *)
Lemma mass_on_positive (d_q : R) :
  0 < d_q ->
  hadronic.chromo_EDM_limits_on_new_particle_mass (PyFloat d_q)
  = Ok ((1.0 / 1e-6) * (1e-12 / 1.0) * sqrt (mass_radicand d_q)).
Proof.
  intros Hd.
  pose proof (mass_radicand_pos d_q Hd) as Hq.
  unfold hadronic.chromo_EDM_limits_on_new_particle_mass, py_mul.
  cbn [bind ret result_monad].
  rewrite true_div_ok by lra.
  fold (mass_radicand d_q).
  rewrite np_sqrt_ok by lra.
  reflexivity.
Qed.

(** At zero the division fails; below zero the square root does. *)
Lemma mass_on_zero :
  hadronic.chromo_EDM_limits_on_new_particle_mass (PyFloat 0)
  = Raise ZeroDivisionError.
Proof.
  unfold hadronic.chromo_EDM_limits_on_new_particle_mass, py_mul.
  cbn [bind ret result_monad].
  replace (0 * (10 ^ 15 / 10 ^ 2) * (1 / 197)) with 0 by lra.
  now rewrite true_div_zero.
Qed.

Lemma mass_on_negative (d_q : R) :
  d_q < 0 ->
  hadronic.chromo_EDM_limits_on_new_particle_mass (PyFloat d_q)
  = Raise InvalidValue.
Proof.
  intros Hd.
  pose proof (mass_radicand_pos (- d_q) ltac:(lra)) as Hq.
  assert (Hneg : mass_radicand d_q < 0).
  { replace (mass_radicand d_q) with (- mass_radicand (- d_q)); [lra |].
    unfold mass_radicand. pose proof PI_RGT_0. field. split; lra. }
  unfold hadronic.chromo_EDM_limits_on_new_particle_mass, py_mul.
  cbn [bind ret result_monad].
  rewrite true_div_ok by lra.
  fold (mass_radicand d_q).
  now rewrite np_sqrt_negative.
Qed.

(** [test_chromo_EDM_limits_on_new_particle_mass]: at the default
    [d_q = 1e-27] the mass scale is within 0.1 of 15.1 TeV. *)
Example mass_at_default :
  exists m : R,
    schiff.chromo_EDM_limits_on_new_particle_mass (PyFloat schiff.d_q_default)
      = Ok m
    /\ Rabs (m - 15.1) < 1e-1.
Proof.
  assert (Hd : 0 < schiff.d_q_default) by (unfold schiff.d_q_default; lra).
  eexists. split.
  - rewrite mass_copies_agree. apply (mass_on_positive _ Hd).
  - pose proof PI_bounds as [Hp1 Hp2].
    assert (Hq : mass_radicand schiff.d_q_default = 985e14 / (137 * PI)).
    { unfold mass_radicand, schiff.d_q_default. field. lra. }
    rewrite Hq.
    assert (Hinv : 985e14 / (137 * PI) * (137 * PI) = 985e14) by (field; lra).
    destruct (sqrt_between (985e14 / (137 * PI)) 1.505e7 1.515e7)
      as [Hs1 Hs2]; try lra; try nra.
    apply Rabs_def1; lra.
Qed.

(** C10.  On positive chromo-EDMs the mass-scale function (either copy) is
    homogeneous of degree -1/2, [f (k * d) = f d / sqrt k], and strictly
    decreasing; the theta_QCD and chromo-EDM conversions of the hadronic
    classes are strictly increasing in the bound. *)
Theorem mass_scale_homogeneous (d_q k : R) :
  0 < d_q -> 0 < k ->
  exists m : R,
    0 < m
    /\ schiff.chromo_EDM_limits_on_new_particle_mass (PyFloat d_q) = Ok m
    /\ hadronic.chromo_EDM_limits_on_new_particle_mass (PyFloat d_q) = Ok m
    /\ schiff.chromo_EDM_limits_on_new_particle_mass (PyFloat (k * d_q))
       = Ok (m / sqrt k)
    /\ hadronic.chromo_EDM_limits_on_new_particle_mass (PyFloat (k * d_q))
       = Ok (m / sqrt k)
    /\ (forall d' : R, d_q < d' ->
          exists m' : R,
            schiff.chromo_EDM_limits_on_new_particle_mass (PyFloat d') = Ok m'
            /\ m' < m)
    /\ (forall (c : klass) (y : Z) (r : string) (b : R),
          hadronic_cls c = true -> d_q < b ->
          exists t t' q q' : R,
            value_of theta_QCD (construct c y d_q r) = Ok (PyFloat t)
            /\ value_of theta_QCD (construct c y b r) = Ok (PyFloat t')
            /\ value_of cEDM (construct c y d_q r) = Ok (PyFloat q)
            /\ value_of cEDM (construct c y b r) = Ok (PyFloat q')
            /\ t < t' /\ q < q').
Proof.
  intros Hd Hk.
  pose proof (mass_radicand_pos d_q Hd) as Hq.
  pose proof (sqrt_lt_R0 _ Hq) as Hs.
  pose proof (sqrt_lt_R0 _ Hk) as Hsk.
  assert (Hkd : 0 < k * d_q) by (apply Rmult_lt_0_compat; assumption).
  exists ((1.0 / 1e-6) * (1e-12 / 1.0) * sqrt (mass_radicand d_q)).
  rewrite !mass_copies_agree, !mass_on_positive by assumption.
  assert (Hscaled :
    (1.0 / 1e-6) * (1e-12 / 1.0) * sqrt (mass_radicand (k * d_q))
    = (1.0 / 1e-6) * (1e-12 / 1.0) * sqrt (mass_radicand d_q) / sqrt k).
  { rewrite mass_radicand_scale by assumption.
    rewrite sqrt_div_alt by assumption.
    field. lra. }
  split; [| split; [| split; [| split; [| split; [| split]]]]].
  - apply Rmult_lt_0_compat; [lra | assumption].
  - reflexivity.
  - reflexivity.
  - now rewrite Hscaled.
  - now rewrite Hscaled.
  - intros d' Hlt.
    assert (Hd' : 0 < d') by lra.
    exists ((1.0 / 1e-6) * (1e-12 / 1.0) * sqrt (mass_radicand d')).
    rewrite mass_copies_agree, mass_on_positive by assumption.
    split; [reflexivity |].
    apply Rmult_lt_compat_l; [lra |].
    apply sqrt_lt_1_alt.
    split; [left; now apply mass_radicand_pos |].
    replace d' with ((d' / d_q) * d_q) by (field; lra).
    assert (Hr : 1 < d' / d_q).
    { apply (Rmult_lt_reg_r d_q); [assumption |].
      replace (d' / d_q * d_q) with d' by (field; lra). lra. }
    rewrite mass_radicand_scale by lra.
    apply (Rmult_lt_reg_r (d' / d_q)); [lra |].
    replace (mass_radicand d_q / (d' / d_q) * (d' / d_q))
      with (mass_radicand d_q) by (field; lra).
    nra.
  - intros c y r b Hc Hb.
    pose proof (theta_QCD_slope_pos c Hc) as Pt.
    pose proof (cEDM_slope_pos c Hc) as Pc.
    exists (theta_QCD_slope c * d_q), (theta_QCD_slope c * b),
      (cEDM_slope c * d_q), (cEDM_slope c * b).
    rewrite !theta_QCD_linear, !cEDM_linear by assumption.
    repeat split; try reflexivity; apply Rmult_lt_compat_l; assumption.
Qed.

Lemma mass_scale_homogeneous_witness :
  exists m : R,
    0 < m
    /\ schiff.chromo_EDM_limits_on_new_particle_mass (PyFloat 1e-27) = Ok m
    /\ hadronic.chromo_EDM_limits_on_new_particle_mass (PyFloat 1e-27) = Ok m
    /\ schiff.chromo_EDM_limits_on_new_particle_mass (PyFloat (4 * 1e-27))
       = Ok (m / sqrt 4)
    /\ hadronic.chromo_EDM_limits_on_new_particle_mass (PyFloat (4 * 1e-27))
       = Ok (m / sqrt 4).
Proof.
  destruct (mass_scale_homogeneous 1e-27 4 ltac:(lra) ltac:(lra))
    as (m & Hm & H1 & H2 & H3 & H4 & _).
  exists m. repeat split; assumption.
Defined.

(** ** The frequency sensitivity *)

Import schiff.

(** The domain of section 4.2: everything positive, the down time possibly
    zero. *)
Definition valid_settings (ms : MeasurementSettings) : Prop :=
  0 < particle_number ms /\ 0 < efficiency ms /\ 0 < measurement_time ms
  /\ 0 <= down_time ms /\ 0 < coherence_time ms.

(** The contract of the sensitivity model as the specification words it:
    [1 / (2 pi tau beta sqrt (N T_total / (tau + T_down)))]. *)
Definition frequency_sensitivity_contract (N beta T_total T_down tau : R) : R :=
  1 / (2 * PI * tau * beta * sqrt (N * T_total / (tau + T_down))).

Definition contract_of (ms : MeasurementSettings) : R :=
  frequency_sensitivity_contract (particle_number ms) (efficiency ms)
    (measurement_time ms) (down_time ms) (coherence_time ms).

(** The denominator of the sensitivity. *)
Definition sensitivity_denominator (ms : MeasurementSettings) : R :=
  2 * PI * coherence_time ms * efficiency ms
  * sqrt (particle_number ms * measurement_time ms
          / (coherence_time ms + down_time ms)).

Lemma cycle_ratio_pos (ms : MeasurementSettings) :
  valid_settings ms ->
  0 < particle_number ms * measurement_time ms
      / (coherence_time ms + down_time ms).
Proof.
  intros (HN & _ & HT & Hd & Htau).
  apply Rdiv_lt_0_compat; [apply Rmult_lt_0_compat; assumption | lra].
Qed.

Lemma sensitivity_denominator_pos (ms : MeasurementSettings) :
  valid_settings ms -> 0 < sensitivity_denominator ms.
Proof.
  intros V. pose proof (cycle_ratio_pos ms V) as Hq.
  destruct V as (HN & Hb & HT & Hd & Htau).
  pose proof PI_RGT_0 as Hpi.
  unfold sensitivity_denominator.
  apply Rmult_lt_0_compat; [| now apply sqrt_lt_R0].
  apply Rmult_lt_0_compat; [| assumption].
  apply Rmult_lt_0_compat; [lra | assumption].
Qed.

(** On valid settings the function returns the contract's number. *)
Lemma frequency_sensitivity_on_valid (ms : MeasurementSettings) :
  valid_settings ms ->
  frequency_sensitivity_Hz ms = Ok (1 / sensitivity_denominator ms).
Proof.
  intros V.
  pose proof (cycle_ratio_pos ms V) as Hq.
  pose proof (sensitivity_denominator_pos ms V) as Hden.
  destruct V as (HN & Hb & HT & Hd & Htau).
  unfold frequency_sensitivity_Hz. cbn [bind result_monad].
  rewrite true_div_ok by lra.
  rewrite np_sqrt_ok by lra.
  fold (sensitivity_denominator ms).
  rewrite true_div_ok by lra.
  reflexivity.
Qed.

Lemma default_settings_valid : valid_settings MeasurementSettings_default.
Proof.
  unfold valid_settings, MeasurementSettings_default; cbn. repeat split; lra.
Qed.

(** C2.  On settings with positive particle number, efficiency, measurement
    time and coherence time and a down time that is not negative, the
    function returns [1 / (2 pi tau beta sqrt (N T_total / (tau + T_down)))];
    on the default settings the result is within 1e-6 of 1.73e-5. *)
Theorem frequency_sensitivity_contract_met (ms : MeasurementSettings) :
  valid_settings ms ->
  frequency_sensitivity_Hz ms
    = Ok (frequency_sensitivity_contract (particle_number ms) (efficiency ms)
            (measurement_time ms) (down_time ms) (coherence_time ms))
  /\ exists f : R,
       frequency_sensitivity_Hz MeasurementSettings_default = Ok f
       /\ f = frequency_sensitivity_contract 1 0.99 864000 30e-3 100
       /\ Rabs (f - 1.73e-5) < 1e-6.
Proof.
  intros V. split.
  - rewrite (frequency_sensitivity_on_valid ms V). reflexivity.
  - exists (1 / sensitivity_denominator MeasurementSettings_default).
    split; [apply frequency_sensitivity_on_valid, default_settings_valid |].
    split; [reflexivity |].
    pose proof (sensitivity_denominator_pos _ default_settings_valid) as Hden.
    unfold sensitivity_denominator, MeasurementSettings_default in *.
    cbn [particle_number efficiency measurement_time down_time coherence_time]
      in *.
    pose proof PI_bounds as [Hp1 Hp2].
    destruct (sqrt_between (1 * 864000 / (100 + 30e-3)) 92.9 93.0)
      as [Hs1 Hs2]; try lra.
    set (S := sqrt (1 * 864000 / (100 + 30e-3))) in *.
    set (D := 2 * PI * 100 * 0.99 * S) in *.
    assert (HD1 : 57000 < D) by (unfold D; nra).
    assert (HD2 : D < 59000) by (unfold D; nra).
    assert (Hinv : 1 / D * D = 1) by (field; lra).
    apply Rabs_def1; nra.
Qed.

(** The settings of [test_frequency_sensitity_JILA]. *)
Definition ms_HfF_2017 : MeasurementSettings :=
  {| particle_number := 9;
     efficiency := 0.08;
     measurement_time := 3600 * 313.8;
     down_time := 950e-3 - 700e-3;
     coherence_time := 700e-3 |}.

Lemma frequency_sensitivity_contract_met_witness :
  frequency_sensitivity_Hz ms_HfF_2017
  = Ok (frequency_sensitivity_contract 9 0.08 (3600 * 313.8)
          (950e-3 - 700e-3) 700e-3).
Proof.
  apply (frequency_sensitivity_contract_met ms_HfF_2017).
  unfold valid_settings, ms_HfF_2017; cbn. repeat split; lra.
Defined.

(** [test_frequency_sensitity_JILA]: the HfF settings give 0.869 mHz to
    within 1e-3 mHz. *)
Example frequency_sensitivity_JILA :
  exists f : R,
    frequency_sensitivity_Hz ms_HfF_2017 = Ok f
    /\ Rabs (0.869 - 1e3 * f) < 1e-3.
Proof.
  assert (V : valid_settings ms_HfF_2017)
    by (unfold valid_settings, ms_HfF_2017; cbn; repeat split; lra).
  exists (1 / sensitivity_denominator ms_HfF_2017).
  split; [exact (frequency_sensitivity_on_valid _ V) |].
  pose proof (sensitivity_denominator_pos _ V) as Hden.
  unfold sensitivity_denominator, ms_HfF_2017 in *.
  cbn [particle_number efficiency measurement_time down_time coherence_time]
    in *.
  pose proof PI_bounds as [Hp1 Hp2].
  destruct (sqrt_between (9 * (3600 * 313.8) / (700e-3 + (950e-3 - 700e-3)))
              3271 3272) as [Hs1 Hs2]; try lra.
  set (S := sqrt (9 * (3600 * 313.8) / (700e-3 + (950e-3 - 700e-3)))) in *.
  set (D := 2 * PI * 700e-3 * 0.08 * S) in *.
  assert (HD1 : 1150.8 < D) by (unfold D; nra).
  assert (HD2 : D < 1151.5) by (unfold D; nra).
  assert (Hinv : 1 / D * D = 1) by (field; lra).
  apply Rabs_def1; nra.
Qed.

(** Settings with one field replaced. *)
Definition with_particle_number (x : R) (ms : MeasurementSettings) :=
  {| particle_number := x;
     efficiency := efficiency ms;
     measurement_time := measurement_time ms;
     down_time := down_time ms;
     coherence_time := coherence_time ms |}.

Definition with_efficiency (x : R) (ms : MeasurementSettings) :=
  {| particle_number := particle_number ms;
     efficiency := x;
     measurement_time := measurement_time ms;
     down_time := down_time ms;
     coherence_time := coherence_time ms |}.

Definition with_measurement_time (x : R) (ms : MeasurementSettings) :=
  {| particle_number := particle_number ms;
     efficiency := efficiency ms;
     measurement_time := x;
     down_time := down_time ms;
     coherence_time := coherence_time ms |}.

Definition with_down_time (x : R) (ms : MeasurementSettings) :=
  {| particle_number := particle_number ms;
     efficiency := efficiency ms;
     measurement_time := measurement_time ms;
     down_time := x;
     coherence_time := coherence_time ms |}.

Definition with_coherence_time (x : R) (ms : MeasurementSettings) :=
  {| particle_number := particle_number ms;
     efficiency := efficiency ms;
     measurement_time := measurement_time ms;
     down_time := down_time ms;
     coherence_time := x |}.

(** Both calls return a number, the first one the smaller. *)
Definition returns_less (r1 r2 : result R) : Prop :=
  exists a b : R, r1 = Ok a /\ r2 = Ok b /\ a < b.

Lemma div_lt_cross (a b c d : R) :
  0 < b -> 0 < d -> a * d < c * b -> a / b < c / d.
Proof.
  intros Hb Hd H.
  assert (Hbd : 0 < / (b * d)).
  { apply Rinv_0_lt_compat. now apply Rmult_lt_0_compat. }
  replace (a / b) with (a * d * / (b * d)) by (field; lra).
  replace (c / d) with (c * b * / (b * d)) by (field; lra).
  now apply Rmult_lt_compat_r.
Qed.

(** The square of the denominator is free of the square root. *)
Lemma sensitivity_denominator_sqr (ms : MeasurementSettings) :
  valid_settings ms ->
  sensitivity_denominator ms * sensitivity_denominator ms
  = (2 * PI * efficiency ms) * (2 * PI * efficiency ms)
    * (coherence_time ms * coherence_time ms
       * (particle_number ms * measurement_time ms)
       / (coherence_time ms + down_time ms)).
Proof.
  intros V. pose proof (cycle_ratio_pos ms V) as Hq.
  destruct V as (HN & Hb & HT & Hd & Htau).
  unfold sensitivity_denominator.
  set (q := particle_number ms * measurement_time ms
            / (coherence_time ms + down_time ms)) in *.
  assert (Hs : sqrt q * sqrt q = q) by (apply sqrt_sqrt; lra).
  replace (2 * PI * coherence_time ms * efficiency ms * sqrt q
           * (2 * PI * coherence_time ms * efficiency ms * sqrt q))
    with ((2 * PI * efficiency ms) * (2 * PI * efficiency ms)
          * (coherence_time ms * coherence_time ms) * (sqrt q * sqrt q))
    by ring.
  rewrite Hs. unfold q. field. lra.
Qed.

Lemma lt_of_sqr_lt (x y : R) : 0 < x -> 0 < y -> x * x < y * y -> x < y.
Proof. intros Hx Hy H. nra. Qed.

(** A larger denominator is a smaller sensitivity. *)
Lemma sensitivity_antitone (ms1 ms2 : MeasurementSettings) :
  valid_settings ms1 -> valid_settings ms2 ->
  sensitivity_denominator ms1 * sensitivity_denominator ms1
    < sensitivity_denominator ms2 * sensitivity_denominator ms2 ->
  returns_less (frequency_sensitivity_Hz ms2) (frequency_sensitivity_Hz ms1).
Proof.
  intros V1 V2 H.
  pose proof (sensitivity_denominator_pos ms1 V1) as P1.
  pose proof (sensitivity_denominator_pos ms2 V2) as P2.
  exists (1 / sensitivity_denominator ms2), (1 / sensitivity_denominator ms1).
  rewrite !frequency_sensitivity_on_valid by assumption.
  split; [reflexivity | split; [reflexivity |]].
  unfold Rdiv. rewrite !Rmult_1_l.
  apply Rinv_lt_contravar; [now apply Rmult_lt_0_compat |].
  now apply lt_of_sqr_lt.
Qed.

Ltac open_settings V :=
  let HN := fresh "HN" in
  let Hb := fresh "Hb" in
  let HT := fresh "HT" in
  let Hd := fresh "Hd" in
  let Htau := fresh "Htau" in
  pose proof V as (HN & Hb & HT & Hd & Htau).

(** C7.  On valid settings the sensitivity strictly decreases when the
    particle number, the measurement time, the coherence time or the
    efficiency is raised with the other fields fixed, and strictly increases
    when the down time is raised. *)
Theorem frequency_sensitivity_monotone (ms : MeasurementSettings) (x : R) :
  valid_settings ms ->
  (particle_number ms < x ->
     returns_less (frequency_sensitivity_Hz (with_particle_number x ms))
       (frequency_sensitivity_Hz ms))
  /\ (measurement_time ms < x ->
        returns_less (frequency_sensitivity_Hz (with_measurement_time x ms))
          (frequency_sensitivity_Hz ms))
  /\ (coherence_time ms < x ->
        returns_less (frequency_sensitivity_Hz (with_coherence_time x ms))
          (frequency_sensitivity_Hz ms))
  /\ (efficiency ms < x ->
        returns_less (frequency_sensitivity_Hz (with_efficiency x ms))
          (frequency_sensitivity_Hz ms))
  /\ (down_time ms < x ->
        returns_less (frequency_sensitivity_Hz ms)
          (frequency_sensitivity_Hz (with_down_time x ms))).
Proof.
  intros V. open_settings V.
  pose proof PI_RGT_0 as Hpi.
  assert (Hc : 0 < 2 * PI * efficiency ms * (2 * PI * efficiency ms)).
  { apply Rmult_lt_0_compat; apply Rmult_lt_0_compat; lra. }
  assert (Htt : 0 < coherence_time ms * coherence_time ms)
    by (apply Rmult_lt_0_compat; assumption).
  assert (HNT : 0 < particle_number ms * measurement_time ms)
    by (apply Rmult_lt_0_compat; assumption).
  split; [| split; [| split; [| split]]]; intros Hx.
  - assert (V' : valid_settings (with_particle_number x ms))
      by (unfold valid_settings; cbn; repeat split; lra).
    apply sensitivity_antitone; try assumption.
    rewrite !sensitivity_denominator_sqr by assumption. cbn.
    apply Rmult_lt_compat_l; [assumption |].
    apply Rmult_lt_compat_r; [apply Rinv_0_lt_compat; lra |].
    apply Rmult_lt_compat_l; [assumption |].
    apply Rmult_lt_compat_r; assumption.
  - assert (V' : valid_settings (with_measurement_time x ms))
      by (unfold valid_settings; cbn; repeat split; lra).
    apply sensitivity_antitone; try assumption.
    rewrite !sensitivity_denominator_sqr by assumption. cbn.
    apply Rmult_lt_compat_l; [assumption |].
    apply Rmult_lt_compat_r; [apply Rinv_0_lt_compat; lra |].
    apply Rmult_lt_compat_l; [assumption |].
    apply Rmult_lt_compat_l; assumption.
  - assert (V' : valid_settings (with_coherence_time x ms))
      by (unfold valid_settings; cbn; repeat split; lra).
    apply sensitivity_antitone; try assumption.
    rewrite !sensitivity_denominator_sqr by assumption. cbn.
    apply Rmult_lt_compat_l; [assumption |].
    apply div_lt_cross; [lra | lra |].
    set (P := particle_number ms * measurement_time ms) in *.
    set (t := coherence_time ms) in *. set (d := down_time ms) in *.
    assert (Hcore : t * t * (x + d) < x * x * (t + d)).
    { assert (0 < t * x * (x - t)) by (repeat apply Rmult_lt_0_compat; lra).
      assert (0 <= d * ((x - t) * (x + t))).
      { apply Rmult_le_pos; [assumption |].
        apply Rmult_le_pos; lra. }
      nra. }
    replace (t * t * P * (x + d)) with (P * (t * t * (x + d))) by ring.
    replace (x * x * P * (t + d)) with (P * (x * x * (t + d))) by ring.
    apply Rmult_lt_compat_l; assumption.
  - assert (V' : valid_settings (with_efficiency x ms))
      by (unfold valid_settings; cbn; repeat split; lra).
    apply sensitivity_antitone; try assumption.
    rewrite !sensitivity_denominator_sqr by assumption. cbn.
    apply Rmult_lt_compat_r.
    + apply Rdiv_lt_0_compat; [| lra].
      apply Rmult_lt_0_compat; assumption.
    + assert (0 < 2 * PI) by lra.
      assert (2 * PI * efficiency ms < 2 * PI * x)
        by (apply Rmult_lt_compat_l; assumption).
      assert (0 < 2 * PI * efficiency ms)
        by (apply Rmult_lt_0_compat; assumption).
      apply Rmult_le_0_lt_compat; lra.
  - assert (V' : valid_settings (with_down_time x ms))
      by (unfold valid_settings; cbn; repeat split; lra).
    apply sensitivity_antitone; try assumption.
    rewrite !sensitivity_denominator_sqr by assumption. cbn.
    apply Rmult_lt_compat_l; [assumption |].
    apply div_lt_cross; [lra | lra |].
    apply Rmult_lt_compat_l; [| lra].
    apply Rmult_lt_0_compat; assumption.
Qed.

Lemma frequency_sensitivity_monotone_witness :
  returns_less
    (frequency_sensitivity_Hz (with_particle_number 2 MeasurementSettings_default))
    (frequency_sensitivity_Hz MeasurementSettings_default)
  /\ returns_less
       (frequency_sensitivity_Hz MeasurementSettings_default)
       (frequency_sensitivity_Hz (with_down_time 2 MeasurementSettings_default)).
Proof.
  destruct (frequency_sensitivity_monotone MeasurementSettings_default 2
              default_settings_valid) as (HN & _ & _ & _ & Hd).
  split; [apply HN | apply Hd]; cbn; lra.
Defined.

(** ** The pion-nucleon couplings *)

Lemma g_prefactor_value :
  _g_pi_NN_to_Schiff_prefactor = 2 * 995 * 1.254 / 185
  /\ 0 < _g_pi_NN_to_Schiff_prefactor.
Proof. unfold _g_pi_NN_to_Schiff_prefactor. split; lra. Qed.

(** The Schiff-moment sensitivity is a number on valid settings whenever the
    alignment and the product of the two SI factors are not zero. *)
Lemma schiff_moment_sensitivity_on_valid
    (c : scipy_constants) (ms : MeasurementSettings) (mol : Molecule) :
  valid_settings ms ->
  nucleus_E_field_alignment mol <> 0 ->
  W_S_SI c mol * schiff_SI c mol <> 0 ->
  schiff_moment_sensitivity c ms mol
  = Ok (K_S mol
        * (1.0 / (2 * nucleus_E_field_alignment mol) * hbar c
           * (2 * PI * (1 / sensitivity_denominator ms))
           / (W_S_SI c mol * schiff_SI c mol))).
Proof.
  intros V Ha Hw.
  unfold schiff_moment_sensitivity, theta_QCD_sensitivity.
  rewrite (frequency_sensitivity_on_valid ms V).
  cbn [bind ret result_monad].
  rewrite true_div_ok by lra.
  rewrite true_div_ok by assumption.
  reflexivity.
Qed.

(** C5.  With [a_0], [a_1], [a_2] not zero, each g_i sensitivity is the
    Schiff-moment sensitivity divided by [prefactor * a_i], the prefactor
    being [2 m_N g_A / F_pi] with g_A = 0.746 - (-0.508) = 1.254,
    F_pi = 185 and m_N = 995; g_0 and g_2 are the absolute values, hence not
    negative, and g_1 has the sign of the Schiff-moment sensitivity over
    [a_1].  When the Schiff-moment sensitivity fails, so does each g_i. *)
Theorem g_sensitivities
    (c : scipy_constants) (ms : MeasurementSettings) (mol : Molecule) :
  a_0 mol <> 0 -> a_1 mol <> 0 -> a_2 mol <> 0 ->
  let g_A := 0.746 - (-0.508) in
  let prefactor := 2 * 995 * g_A / 185 in
  g_A = 1.254
  /\ _g_pi_NN_to_Schiff_prefactor = prefactor
  /\ match schiff_moment_sensitivity c ms mol with
     | Ok s =>
         g_0_sensitivity c ms mol = Ok (Rabs (s / (prefactor * a_0 mol)))
         /\ g_1_sensitivity c ms mol = Ok (s / (prefactor * a_1 mol))
         /\ g_2_sensitivity c ms mol = Ok (Rabs (s / (prefactor * a_2 mol)))
         /\ 0 <= Rabs (s / (prefactor * a_0 mol))
         /\ 0 <= Rabs (s / (prefactor * a_2 mol))
         /\ (0 < s / (prefactor * a_1 mol) <-> 0 < s / a_1 mol)
         /\ (s / (prefactor * a_1 mol) < 0 <-> s / a_1 mol < 0)
     | Raise e =>
         g_0_sensitivity c ms mol = Raise e
         /\ g_1_sensitivity c ms mol = Raise e
         /\ g_2_sensitivity c ms mol = Raise e
     end.
Proof.
  intros H0 H1 H2 g_A prefactor.
  destruct g_prefactor_value as [Hval Hpos].
  assert (Hpre : _g_pi_NN_to_Schiff_prefactor = prefactor)
    by (rewrite Hval; unfold prefactor, g_A; lra).
  split; [unfold g_A; lra |].
  split; [exact Hpre |].
  unfold g_0_sensitivity, g_1_sensitivity, g_2_sensitivity.
  rewrite Hpre in *.
  destruct (schiff_moment_sensitivity c ms mol) as [s | e];
    cbn [bind ret result_monad]; [| repeat split].
  assert (N0 : prefactor * a_0 mol <> 0) by (apply Rmult_integral_contrapositive; split; lra).
  assert (N1 : prefactor * a_1 mol <> 0) by (apply Rmult_integral_contrapositive; split; lra).
  assert (N2 : prefactor * a_2 mol <> 0) by (apply Rmult_integral_contrapositive; split; lra).
  rewrite !true_div_ok by assumption.
  cbn [bind ret result_monad].
  assert (E : s / (prefactor * a_1 mol) = s / a_1 mol * / prefactor)
    by (field; split; lra).
  assert (Pinv : 0 < / prefactor) by (apply Rinv_0_lt_compat; exact Hpos).
  repeat split; try reflexivity; try apply Rabs_pos; rewrite E; intros Hs.
  - apply (Rmult_lt_reg_r (/ prefactor)); [assumption | lra].
  - now apply Rmult_lt_0_compat.
  - apply (Rmult_lt_reg_r (/ prefactor)); [assumption | lra].
  - replace 0 with (0 * / prefactor) by ring.
    now apply Rmult_lt_compat_r.
Qed.

(** The CODATA 2018 values of the constants. *)
Definition CODATA_2018 : scipy_constants :=
  {| e_ := 1.602176634e-19;
     hbar := 1.054571817e-34;
     epsilon_0 := 8.8541878128e-12;
     Bohr_radius := 5.29177210903e-11 |}.

Lemma default_molecule_factors :
  0 < W_S_SI CODATA_2018 Molecule_default * schiff_SI CODATA_2018 Molecule_default.
Proof.
  pose proof PI_RGT_0 as Hpi.
  unfold W_S_SI, schiff_SI, Molecule_default, Molecule_init, CODATA_2018.
  cbn [W_S K_S e_ epsilon_0 Bohr_radius].
  apply Rmult_lt_0_compat.
  - apply Rmult_lt_0_compat; [| lra].
    apply Rdiv_lt_0_compat; [lra |].
    apply Rmult_lt_0_compat; [| apply pow_lt; lra].
    apply Rmult_lt_0_compat; lra.
  - apply Rmult_lt_0_compat; [| lra].
    apply Rmult_lt_0_compat; [lra | apply pow_lt; lra].
Qed.

Lemma g_sensitivities_witness :
  exists s : R,
    schiff_moment_sensitivity CODATA_2018 MeasurementSettings_default
      Molecule_default = Ok s
    /\ g_0_sensitivity CODATA_2018 MeasurementSettings_default Molecule_default
       = Ok (Rabs (s / (2 * 995 * (0.746 - (-0.508)) / 185 * (-1.5))))
    /\ g_1_sensitivity CODATA_2018 MeasurementSettings_default Molecule_default
       = Ok (s / (2 * 995 * (0.746 - (-0.508)) / 185 * 6.0))
    /\ g_2_sensitivity CODATA_2018 MeasurementSettings_default Molecule_default
       = Ok (Rabs (s / (2 * 995 * (0.746 - (-0.508)) / 185 * (-4.0)))).
Proof.
  pose proof default_molecule_factors as Hw.
  pose proof (schiff_moment_sensitivity_on_valid CODATA_2018
                MeasurementSettings_default Molecule_default
                default_settings_valid) as Hs.
  cbn [nucleus_E_field_alignment Molecule_default Molecule_init] in Hs.
  specialize (Hs ltac:(lra) ltac:(lra)).
  pose proof (g_sensitivities CODATA_2018 MeasurementSettings_default
                Molecule_default) as G.
  cbn [a_0 a_1 a_2 Molecule_default Molecule_init] in G.
  specialize (G ltac:(lra) ltac:(lra) ltac:(lra)).
  cbv zeta in G. destruct G as (_ & _ & G).
  rewrite Hs in G. destruct G as (G0 & G1 & G2 & _).
  eexists. split; [exact Hs |].
  repeat split; assumption.
Defined.


(** * Further properties of the conversions *)

(** ** Linearity of the hadronic conversions *)

(** Scaling the bound by [c] scales theta_QCD and the chromo-EDM of a
    hadronic class by [c], and the conversions of a sum of bounds are the
    sums of the conversions. *)
Theorem conversions_are_linear
    (k : klass) (y : Z) (r : string) (c b b' : R) :
  hadronic_cls k = true ->
  exists t q t' q' : R,
    value_of theta_QCD (construct k y b r) = Ok (PyFloat t)
    /\ value_of cEDM (construct k y b r) = Ok (PyFloat q)
    /\ value_of theta_QCD (construct k y b' r) = Ok (PyFloat t')
    /\ value_of cEDM (construct k y b' r) = Ok (PyFloat q')
    /\ value_of theta_QCD (construct k y (c * b) r) = Ok (PyFloat (c * t))
    /\ value_of cEDM (construct k y (c * b) r) = Ok (PyFloat (c * q))
    /\ value_of theta_QCD (construct k y (b + b') r) = Ok (PyFloat (t + t'))
    /\ value_of cEDM (construct k y (b + b') r) = Ok (PyFloat (q + q'))
    /\ value_of theta_QCD (construct k y 0 r) = Ok (PyFloat 0)
    /\ value_of cEDM (construct k y 0 r) = Ok (PyFloat 0).
Proof.
  intros Hk.
  exists (theta_QCD_slope k * b), (cEDM_slope k * b),
    (theta_QCD_slope k * b'), (cEDM_slope k * b').
  rewrite !theta_QCD_linear, !cEDM_linear by assumption.
  repeat split; same_float.
Qed.

Lemma conversions_are_linear_witness :
  exists t q t' q' : R,
    value_of theta_QCD (construct TlFLimit_cls 1991 2.9e-23 "Cho1991")
      = Ok (PyFloat t)
    /\ value_of cEDM (construct TlFLimit_cls 1991 2.9e-23 "Cho1991")
      = Ok (PyFloat q)
    /\ value_of theta_QCD (construct TlFLimit_cls 1991 1e-23 "Cho1991")
      = Ok (PyFloat t')
    /\ value_of cEDM (construct TlFLimit_cls 1991 1e-23 "Cho1991")
      = Ok (PyFloat q')
    /\ value_of theta_QCD (construct TlFLimit_cls 1991 (3 * 2.9e-23) "Cho1991")
      = Ok (PyFloat (3 * t))
    /\ value_of cEDM (construct TlFLimit_cls 1991 (3 * 2.9e-23) "Cho1991")
      = Ok (PyFloat (3 * q))
    /\ value_of theta_QCD (construct TlFLimit_cls 1991 (2.9e-23 + 1e-23) "Cho1991")
      = Ok (PyFloat (t + t'))
    /\ value_of cEDM (construct TlFLimit_cls 1991 (2.9e-23 + 1e-23) "Cho1991")
      = Ok (PyFloat (q + q'))
    /\ value_of theta_QCD (construct TlFLimit_cls 1991 0 "Cho1991")
      = Ok (PyFloat 0)
    /\ value_of cEDM (construct TlFLimit_cls 1991 0 "Cho1991")
      = Ok (PyFloat 0).
Proof.
  apply (conversions_are_linear TlFLimit_cls 1991 "Cho1991" 3 2.9e-23 1e-23).
  reflexivity.
Defined.

(** ** Xe and Yb as effective Hg bounds *)

(** A Xe bound [b] converts like the Hg bound [10 b], for theta_QCD and for
    the chromo-EDM; a Yb bound [b] has the chromo-EDM of the Hg bound
    [b / 0.6], while its theta_QCD goes through its own Schiff limit and is
    not the Hg one. *)
Theorem Xe_and_Yb_as_effective_Hg (y y' : Z) (r r' : string) (b : R) :
  value_of theta_QCD (construct XeLimit_cls y b r)
    = value_of theta_QCD (construct HgLimit_cls y' (10 * b) r')
  /\ value_of cEDM (construct XeLimit_cls y b r)
    = value_of cEDM (construct HgLimit_cls y' (10 * b) r')
  /\ value_of cEDM (construct YbLimit_cls y b r)
    = value_of cEDM (construct HgLimit_cls y' (b / 0.6) r')
  /\ (b <> 0 ->
      value_of theta_QCD (construct YbLimit_cls y b r)
        <> value_of theta_QCD (construct HgLimit_cls y' (b / 0.6) r')).
Proof.
  repeat split; try (run_property; same_float).
  intros Hb. run_property. intros E. injection E as E.
  apply Hb.
  assert (L : (1e15 / 1e2 / 1.88e-4 / 0.005 - 1 / 0.6 / (7.4e-30 / 1.5e-10)) * b = 0)
    by lra.
  apply Rmult_integral in L. destruct L as [L | L]; [exfalso; lra | exact L].
Qed.

Lemma Xe_and_Yb_as_effective_Hg_witness :
  value_of theta_QCD (construct YbLimit_cls 2022 1.5e-26 "Zheng2022")
    <> value_of theta_QCD (construct HgLimit_cls 2016 (1.5e-26 / 0.6) "Graner2016").
Proof.
  apply (Xe_and_Yb_as_effective_Hg 2022 2016 "Zheng2022" "Graner2016" 1.5e-26).
  lra.
Defined.

(** ** Where the mass scales are numbers *)

(** The mass-scale function returns a number exactly on the positive
    chromo-EDMs: None is a TypeError, zero a division by zero, a negative
    value a square root of a negative number. *)
Theorem mass_scale_domain (d_q : R) :
  ((exists m : R,
       hadronic.chromo_EDM_limits_on_new_particle_mass (PyFloat d_q) = Ok m)
   <-> 0 < d_q)
  /\ (d_q = 0 ->
      hadronic.chromo_EDM_limits_on_new_particle_mass (PyFloat d_q)
      = Raise ZeroDivisionError)
  /\ (d_q < 0 ->
      hadronic.chromo_EDM_limits_on_new_particle_mass (PyFloat d_q)
      = Raise InvalidValue)
  /\ hadronic.chromo_EDM_limits_on_new_particle_mass PyNone = Raise TypeError.
Proof.
  split; [| split; [| split]].
  - split.
    + intros [m Hm].
      destruct (Rtotal_order d_q 0) as [Hneg | [Hz | Hpos]];
        [| | exact Hpos].
      * rewrite (mass_on_negative d_q Hneg) in Hm. discriminate Hm.
      * subst d_q. rewrite mass_on_zero in Hm. discriminate Hm.
    + intros Hpos. eexists. apply (mass_on_positive d_q Hpos).
  - intros ->. apply mass_on_zero.
  - apply mass_on_negative.
  - reflexivity.
Qed.

Lemma mass_scale_domain_witness :
  hadronic.chromo_EDM_limits_on_new_particle_mass (PyFloat (-1e-27))
  = Raise InvalidValue.
Proof.
  apply (mass_scale_domain (-1e-27)). lra.
Defined.

(** On an object of a hadronic class the mass property runs the mass-scale
    function on the slope of the class times the bound. *)
Lemma mass_from_cEDM_run (k : klass) (y : Z) (b : R) (r : string) :
  hadronic_cls k = true ->
  value_of new_particle_mass_from_cEDM (construct k y b r)
  = hadronic.chromo_EDM_limits_on_new_particle_mass (PyFloat (cEDM_slope k * b)).
Proof.
  intros Hk.
  pose proof (cEDM_linear k y b r Hk) as Hc.
  pose proof (proj1 immutable_cEDM (construct k y b r)) as Hf.
  unfold value_of in *. unfold object_after in Hf.
  unfold new_particle_mass_from_cEDM. cbn [bind method_monad].
  destruct (cEDM (construct k y b r)) as [v s]. cbn [fst snd] in *.
  subst. reflexivity.
Qed.

Lemma mass_radicand_decreasing (d d' : R) :
  0 < d -> d < d' -> mass_radicand d' < mass_radicand d.
Proof.
  intros Hd Hlt.
  pose proof PI_RGT_0 as Hpi.
  unfold mass_radicand.
  apply div_lt_cross.
  - apply Rmult_lt_0_compat; [| lra].
    apply Rmult_lt_0_compat; lra.
  - apply Rmult_lt_0_compat; [| lra].
    apply Rmult_lt_0_compat; lra.
  - apply Rmult_lt_compat_l.
    + apply Rmult_lt_0_compat; [| lra].
      apply Rdiv_lt_0_compat; lra.
    + lra.
Qed.

(** For each hadronic class the mass scale derived from a positive bound is
    a positive number that strictly decreases as the bound grows; from a
    zero bound it is a division by zero and from a negative bound a square
    root of a negative number. *)
Theorem hadronic_mass_scale (k : klass) (y : Z) (r : string) (b : R) :
  hadronic_cls k = true ->
  (0 < b ->
   exists m : R,
     value_of new_particle_mass_from_cEDM (construct k y b r) = Ok m
     /\ 0 < m
     /\ forall b' : R, b < b' ->
          exists m' : R,
            value_of new_particle_mass_from_cEDM (construct k y b' r) = Ok m'
            /\ m' < m)
  /\ (b = 0 ->
      value_of new_particle_mass_from_cEDM (construct k y b r)
      = Raise ZeroDivisionError)
  /\ (b < 0 ->
      value_of new_particle_mass_from_cEDM (construct k y b r)
      = Raise InvalidValue).
Proof.
  intros Hk.
  pose proof (cEDM_slope_pos k Hk) as Hs.
  split; [| split].
  - intros Hb.
    assert (Hd : 0 < cEDM_slope k * b) by (apply Rmult_lt_0_compat; assumption).
    pose proof (mass_radicand_pos _ Hd) as Hq.
    eexists. rewrite (mass_from_cEDM_run k y b r Hk).
    split; [apply (mass_on_positive _ Hd) |].
    split; [apply Rmult_lt_0_compat; [lra | now apply sqrt_lt_R0] |].
    intros b' Hlt.
    assert (Hd' : cEDM_slope k * b < cEDM_slope k * b')
      by (apply Rmult_lt_compat_l; assumption).
    assert (Hpos' : 0 < cEDM_slope k * b') by lra.
    eexists. rewrite (mass_from_cEDM_run k y b' r Hk).
    split; [apply (mass_on_positive _ Hpos') |].
    apply Rmult_lt_compat_l; [lra |].
    apply sqrt_lt_1_alt.
    split; [left; now apply mass_radicand_pos |].
    now apply mass_radicand_decreasing.
  - intros ->. rewrite (mass_from_cEDM_run k y 0 r Hk).
    rewrite Rmult_0_r. apply mass_on_zero.
  - intros Hb. rewrite (mass_from_cEDM_run k y b r Hk).
    apply mass_on_negative.
    rewrite <- (Rmult_0_r (cEDM_slope k)).
    apply Rmult_lt_compat_l; assumption.
Qed.

Lemma hadronic_mass_scale_witness :
  exists m : R,
    value_of new_particle_mass_from_cEDM
      (construct HgLimit_cls 2016 7.4e-30 "Graner2016") = Ok m
    /\ 0 < m
    /\ forall b' : R, 7.4e-30 < b' ->
         exists m' : R,
           value_of new_particle_mass_from_cEDM
             (construct HgLimit_cls 2016 b' "Graner2016") = Ok m'
           /\ m' < m.
Proof.
  apply (hadronic_mass_scale HgLimit_cls 2016 "Graner2016" 7.4e-30).
  - reflexivity.
  - lra.
Defined.

(** ** The electron mass limits *)

Ltac run_electron :=
  cbv [value_of object_after construct __init__
       one_loop_mass_limit two_loop_mass_limit
       lookup_one_loop_mass_limit lookup_two_loop_mass_limit
       electron.eEDMLimit.one_loop_mass_limit
       electron.eEDMLimit.two_loop_mass_limit
       get_edm_e_cm lift raise bind ret method_monad cls edm_e_cm fst snd].

Lemma electron_radicand_pos (b : R) : 0 < b -> 0 < 1e-29 / b.
Proof. intros Hb. apply Rdiv_lt_0_compat; lra. Qed.

Lemma electron_limits_on_positive (y : Z) (b : R) (r : string) :
  0 < b ->
  value_of one_loop_mass_limit (construct eEDMLimit_cls y b r)
    = Ok (48 * sqrt (1e-29 / b))
  /\ value_of two_loop_mass_limit (construct eEDMLimit_cls y b r)
    = Ok (2 * sqrt (1e-29 / b)).
Proof.
  intros Hb. pose proof (electron_radicand_pos b Hb) as Hq.
  split; run_electron;
    rewrite true_div_ok by lra; rewrite np_sqrt_ok by lra; reflexivity.
Qed.



(** The electron mass limits are numbers exactly on the positive bounds: a
    zero bound is a division by zero and a negative bound a square root of a
    negative number, for the one-loop and the two-loop limit alike. *)
Theorem electron_mass_limits_domain (y : Z) (r : string) (b : R) :
  ((exists m : R,
       value_of one_loop_mass_limit (construct eEDMLimit_cls y b r) = Ok m)
   <-> 0 < b)
  /\ ((exists m : R,
         value_of two_loop_mass_limit (construct eEDMLimit_cls y b r) = Ok m)
      <-> 0 < b)
  /\ (b = 0 ->
      value_of one_loop_mass_limit (construct eEDMLimit_cls y b r)
        = Raise ZeroDivisionError
      /\ value_of two_loop_mass_limit (construct eEDMLimit_cls y b r)
        = Raise ZeroDivisionError)
  /\ (b < 0 ->
      value_of one_loop_mass_limit (construct eEDMLimit_cls y b r)
        = Raise InvalidValue
      /\ value_of two_loop_mass_limit (construct eEDMLimit_cls y b r)
        = Raise InvalidValue).
Proof.
  assert (Z0 : b = 0 ->
      value_of one_loop_mass_limit (construct eEDMLimit_cls y b r)
        = Raise ZeroDivisionError
      /\ value_of two_loop_mass_limit (construct eEDMLimit_cls y b r)
        = Raise ZeroDivisionError).
  { intros ->. split; run_electron; rewrite true_div_zero; reflexivity. }
  assert (N0 : b < 0 ->
      value_of one_loop_mass_limit (construct eEDMLimit_cls y b r)
        = Raise InvalidValue
      /\ value_of two_loop_mass_limit (construct eEDMLimit_cls y b r)
        = Raise InvalidValue).
  { intros Hb.
    assert (Hq : 1e-29 / b < 0).
    { replace (1e-29 / b) with (- (1e-29 / (- b))) by (field; lra).
      pose proof (electron_radicand_pos (- b) ltac:(lra)). lra. }
    split; run_electron; rewrite true_div_ok by lra;
      rewrite np_sqrt_negative by assumption; reflexivity. }
  split; [| split; [| split; [exact Z0 | exact N0]]].
  - split.
    + intros [m Hm].
      destruct (Rtotal_order b 0) as [Hneg | [Hz | Hpos]]; [| | exact Hpos].
      * destruct (N0 Hneg) as [E _]. rewrite E in Hm. discriminate Hm.
      * destruct (Z0 Hz) as [E _]. rewrite E in Hm. discriminate Hm.
    + intros Hb. eexists. apply (electron_limits_on_positive y b r Hb).
  - split.
    + intros [m Hm].
      destruct (Rtotal_order b 0) as [Hneg | [Hz | Hpos]]; [| | exact Hpos].
      * destruct (N0 Hneg) as [_ E]. rewrite E in Hm. discriminate Hm.
      * destruct (Z0 Hz) as [_ E]. rewrite E in Hm. discriminate Hm.
    + intros Hb. eexists. apply (electron_limits_on_positive y b r Hb).
Qed.

Lemma electron_mass_limits_domain_witness :
  value_of one_loop_mass_limit (construct eEDMLimit_cls 2018 0 "x")
    = Raise ZeroDivisionError
  /\ value_of two_loop_mass_limit (construct eEDMLimit_cls 2018 0 "x")
    = Raise ZeroDivisionError.
Proof.
  apply (electron_mass_limits_domain 2018 "x" 0). reflexivity.
Defined.

(** ** The two mass routes *)

(** On the base and the electron class the inherited mass property runs into
    [None * float]. *)
Lemma mass_from_cEDM_type_error_base_or_electron (self : instance) :
  cls self = EDMLimit_cls \/ cls self = eEDMLimit_cls ->
  new_particle_mass_from_cEDM self = (Raise TypeError, self)
  /\ cEDM self = (Ok PyNone, self).
Proof.
  intros [E | E]; unfold new_particle_mass_from_cEDM, cEDM;
    cbn [bind method_monad]; rewrite E; split; reflexivity.
Qed.

(** With a positive bound, the mass scale from the chromo-EDM is a number
    exactly on the six hadronic classes, and the one- and two-loop limits
    are numbers exactly on the electron class; an object of the base class
    has neither. *)
Theorem mass_routes_by_class (k : klass) (y : Z) (r : string) (b : R) :
  0 < b ->
  ((exists m : R,
       value_of new_particle_mass_from_cEDM (construct k y b r) = Ok m)
   <-> hadronic_cls k = true)
  /\ ((exists m : R,
         value_of one_loop_mass_limit (construct k y b r) = Ok m)
      <-> k = eEDMLimit_cls)
  /\ ((exists m : R,
         value_of two_loop_mass_limit (construct k y b r) = Ok m)
      <-> k = eEDMLimit_cls)
  /\ (k <> eEDMLimit_cls ->
      value_of one_loop_mass_limit (construct k y b r) = Raise AttributeError
      /\ value_of two_loop_mass_limit (construct k y b r) = Raise AttributeError).
Proof.
  intros Hb.
  split; [| split; [| split]].
  - split.
    + intros [m Hm].
      destruct k; try reflexivity; exfalso.
      * destruct (mass_from_cEDM_type_error_base_or_electron
                    (construct EDMLimit_cls y b r)) as [E _];
          [left; reflexivity |].
        unfold value_of in Hm. rewrite E in Hm. discriminate Hm.
      * destruct (mass_from_cEDM_type_error_base_or_electron
                    (construct eEDMLimit_cls y b r)) as [E _];
          [right; reflexivity |].
        unfold value_of in Hm. rewrite E in Hm. discriminate Hm.
    + intros Hk.
      assert (Hd : 0 < cEDM_slope k * b)
        by (apply Rmult_lt_0_compat; [now apply cEDM_slope_pos | assumption]).
      eexists. rewrite (mass_from_cEDM_run k y b r Hk).
      apply (mass_on_positive _ Hd).
  - split.
    + intros [m Hm]. destruct k; try reflexivity; discriminate Hm.
    + intros ->. eexists. apply (electron_limits_on_positive y b r Hb).
  - split.
    + intros [m Hm]. destruct k; try reflexivity; discriminate Hm.
    + intros ->. eexists. apply (electron_limits_on_positive y b r Hb).
  - intros Hk. destruct k; try (now elim Hk); split; reflexivity.
Qed.

Lemma mass_routes_by_class_witness :
  (exists m : R,
      value_of new_particle_mass_from_cEDM
        (construct EDMLimit_cls 2020 1e-26 "x") = Ok m)
  <-> hadronic_cls EDMLimit_cls = true.
Proof.
  apply (mass_routes_by_class EDMLimit_cls 2020 "x" 1e-26). lra.
Defined.

(** ** The frequency sensitivity outside and inside its domain *)

Lemma frequency_sensitivity_steps (ms : MeasurementSettings) :
  frequency_sensitivity_Hz ms
  = (q <- true_div (particle_number ms * measurement_time ms)
            (coherence_time ms + down_time ms) ;;
     r <- np_sqrt q ;;
     true_div 1 (2 * PI * coherence_time ms * efficiency ms * r)).
Proof. reflexivity. Qed.

(** With a cycle time [tau + T_down] that is not zero, the sensitivity is a
    number exactly when the ratio [N T_total / (tau + T_down)] is positive
    and neither the coherence time nor the efficiency is zero.  A negative
    ratio is a square root of a negative number, which no later operation
    turns back into a number; a zero ratio, coherence time or efficiency
    makes the denominator zero, and the division by it is the last
    operation. *)
Theorem frequency_sensitivity_domain (ms : MeasurementSettings) :
  let cycle := coherence_time ms + down_time ms in
  let ratio := particle_number ms * measurement_time ms / cycle in
  cycle <> 0 ->
  ((exists f : R, frequency_sensitivity_Hz ms = Ok f)
   <-> 0 < ratio /\ coherence_time ms <> 0 /\ efficiency ms <> 0)
  /\ (0 < ratio -> coherence_time ms <> 0 -> efficiency ms <> 0 ->
      frequency_sensitivity_Hz ms
      = Ok (1 / (2 * PI * coherence_time ms * efficiency ms * sqrt ratio)))
  /\ (ratio < 0 -> frequency_sensitivity_Hz ms = Raise InvalidValue)
  /\ (0 <= ratio ->
      ratio = 0 \/ coherence_time ms = 0 \/ efficiency ms = 0 ->
      frequency_sensitivity_Hz ms = Raise ZeroDivisionError).
Proof.
  intros cycle ratio Hc.
  pose proof PI_RGT_0 as Hpi.
  assert (Pos : 0 < ratio -> coherence_time ms <> 0 -> efficiency ms <> 0 ->
                frequency_sensitivity_Hz ms
                = Ok (1 / (2 * PI * coherence_time ms * efficiency ms
                           * sqrt ratio))).
  { intros Hr Ht He.
    rewrite frequency_sensitivity_steps. fold cycle.
    rewrite true_div_ok by assumption. cbn [bind result_monad].
    fold ratio. rewrite np_sqrt_ok by lra. cbn [bind result_monad].
    apply true_div_ok.
    pose proof (sqrt_lt_R0 _ Hr) as Hs.
    apply Rmult_integral_contrapositive_currified; [| lra].
    apply Rmult_integral_contrapositive_currified; [| assumption].
    apply Rmult_integral_contrapositive_currified; [lra | assumption]. }
  assert (Neg : ratio < 0 -> frequency_sensitivity_Hz ms = Raise InvalidValue).
  { intros Hr. rewrite frequency_sensitivity_steps. fold cycle.
    rewrite true_div_ok by assumption. cbn [bind result_monad].
    fold ratio. now rewrite np_sqrt_negative. }
  assert (Zd : 0 <= ratio ->
               ratio = 0 \/ coherence_time ms = 0 \/ efficiency ms = 0 ->
               frequency_sensitivity_Hz ms = Raise ZeroDivisionError).
  { intros Hr Hz. rewrite frequency_sensitivity_steps. fold cycle.
    rewrite true_div_ok by assumption. cbn [bind result_monad].
    fold ratio. rewrite np_sqrt_ok by assumption. cbn [bind result_monad].
    replace (2 * PI * coherence_time ms * efficiency ms * sqrt ratio) with 0;
      [apply true_div_zero |].
    destruct Hz as [E | [E | E]]; rewrite E; [rewrite sqrt_0 | |]; ring. }
  split; [| split; [exact Pos | split; [exact Neg | exact Zd]]].
  split.
  - intros [f Hf].
    destruct (Rlt_dec ratio 0) as [Hr | Hr];
      [rewrite (Neg Hr) in Hf; discriminate Hf |].
    apply Rnot_lt_le in Hr.
    destruct (Req_dec_T ratio 0) as [E0 | N0];
      [rewrite (Zd Hr (or_introl E0)) in Hf; discriminate Hf |].
    destruct (Req_dec_T (coherence_time ms) 0) as [E1 | N1];
      [rewrite (Zd Hr (or_intror (or_introl E1))) in Hf; discriminate Hf |].
    destruct (Req_dec_T (efficiency ms) 0) as [E2 | N2];
      [rewrite (Zd Hr (or_intror (or_intror E2))) in Hf; discriminate Hf |].
    repeat split; try assumption. lra.
  - intros (Hr & Ht & He). eexists. exact (Pos Hr Ht He).
Qed.

Lemma frequency_sensitivity_domain_witness :
  frequency_sensitivity_Hz (with_particle_number 0 MeasurementSettings_default)
    = Raise ZeroDivisionError
  /\ frequency_sensitivity_Hz (with_particle_number (-1) MeasurementSettings_default)
    = Raise InvalidValue.
Proof.
  split.
  - apply (frequency_sensitivity_domain
             (with_particle_number 0 MeasurementSettings_default));
      cbn; [lra | lra | left; lra].
  - apply (frequency_sensitivity_domain
             (with_particle_number (-1) MeasurementSettings_default));
      cbn; lra.
Defined.

(** The shot-noise law.  On valid settings, multiplying the particle number
    or the measurement time by [k > 0] divides the sensitivity by [sqrt k],
    multiplying the efficiency by [k] divides it by [k], and exchanging the
    particle number with the measurement time leaves it as it is. *)
Theorem frequency_sensitivity_shot_noise (ms : MeasurementSettings) (k : R) :
  valid_settings ms -> 0 < k ->
  exists f : R,
    frequency_sensitivity_Hz ms = Ok f
    /\ 0 < f
    /\ frequency_sensitivity_Hz
         (with_particle_number (k * particle_number ms) ms) = Ok (f / sqrt k)
    /\ frequency_sensitivity_Hz
         (with_measurement_time (k * measurement_time ms) ms) = Ok (f / sqrt k)
    /\ frequency_sensitivity_Hz
         (with_efficiency (k * efficiency ms) ms) = Ok (f / k)
    /\ frequency_sensitivity_Hz
         (with_particle_number (measurement_time ms)
            (with_measurement_time (particle_number ms) ms)) = Ok f.
Proof.
  intros V Hk. open_settings V.
  pose proof PI_RGT_0 as Hpi.
  pose proof (cycle_ratio_pos ms V) as Hq.
  pose proof (sensitivity_denominator_pos ms V) as Hden.
  pose proof (sqrt_lt_R0 _ Hk) as Hsk.
  pose proof (sqrt_lt_R0 _ Hq) as Hsq.
  assert (Hkq : sqrt (k * (particle_number ms * measurement_time ms
                           / (coherence_time ms + down_time ms)))
                = sqrt k * sqrt (particle_number ms * measurement_time ms
                                 / (coherence_time ms + down_time ms)))
    by (apply sqrt_mult_alt; lra).
  exists (1 / sensitivity_denominator ms).
  split; [exact (frequency_sensitivity_on_valid ms V) |].
  split; [apply Rdiv_lt_0_compat; lra |].
  split; [| split; [| split]].
  - rewrite frequency_sensitivity_on_valid
      by (unfold valid_settings; cbn; repeat split;
          try assumption; apply Rmult_lt_0_compat; assumption).
    apply f_equal. unfold sensitivity_denominator in *. cbn.
    replace (k * particle_number ms * measurement_time ms
             / (coherence_time ms + down_time ms))
      with (k * (particle_number ms * measurement_time ms
                 / (coherence_time ms + down_time ms))) by (field; lra).
    rewrite Hkq. field. repeat split; lra.
  - rewrite frequency_sensitivity_on_valid
      by (unfold valid_settings; cbn; repeat split;
          try assumption; apply Rmult_lt_0_compat; assumption).
    apply f_equal. unfold sensitivity_denominator in *. cbn.
    replace (particle_number ms * (k * measurement_time ms)
             / (coherence_time ms + down_time ms))
      with (k * (particle_number ms * measurement_time ms
                 / (coherence_time ms + down_time ms))) by (field; lra).
    rewrite Hkq. field. repeat split; lra.
  - rewrite frequency_sensitivity_on_valid
      by (unfold valid_settings; cbn; repeat split;
          try assumption; apply Rmult_lt_0_compat; assumption).
    apply f_equal. unfold sensitivity_denominator in *. cbn.
    field. repeat split; lra.
  - rewrite frequency_sensitivity_on_valid
      by (unfold valid_settings; cbn; repeat split; assumption).
    apply f_equal. unfold sensitivity_denominator. cbn.
    rewrite (Rmult_comm (measurement_time ms) (particle_number ms)).
    reflexivity.
Qed.

Lemma frequency_sensitivity_shot_noise_witness :
  exists f : R,
    frequency_sensitivity_Hz MeasurementSettings_default = Ok f
    /\ 0 < f
    /\ frequency_sensitivity_Hz
         (with_particle_number (4 * 1) MeasurementSettings_default)
       = Ok (f / sqrt 4).
Proof.
  destruct (frequency_sensitivity_shot_noise MeasurementSettings_default 4
              default_settings_valid ltac:(lra))
    as (f & H1 & H2 & H3 & _).
  exists f. repeat split; assumption.
Defined.

(** The price of the down time.  On valid settings the sensitivity is the
    sensitivity of the same settings without down time,
    [1 / (2 pi beta sqrt (N T_total tau))], times
    [sqrt ((tau + T_down) / tau)]. *)
Theorem frequency_sensitivity_down_time (ms : MeasurementSettings) :
  valid_settings ms ->
  exists f f0 : R,
    frequency_sensitivity_Hz ms = Ok f
    /\ frequency_sensitivity_Hz (with_down_time 0 ms) = Ok f0
    /\ f0 = 1 / (2 * PI * efficiency ms
                 * sqrt (particle_number ms * measurement_time ms
                         * coherence_time ms))
    /\ f = f0 * sqrt ((coherence_time ms + down_time ms) / coherence_time ms)
    /\ f0 <= f.
Proof.
  intros V.
  pose proof PI_RGT_0 as Hpi.
  assert (V0 : valid_settings (with_down_time 0 ms)).
  { open_settings V.
    unfold valid_settings; cbn; repeat split; try assumption; lra. }
  pose proof (cycle_ratio_pos ms V) as Hq.
  pose proof (cycle_ratio_pos _ V0) as Hq0.
  pose proof (sensitivity_denominator_pos ms V) as Hden.
  pose proof (sensitivity_denominator_pos _ V0) as Hden0.
  exists (1 / sensitivity_denominator ms),
    (1 / sensitivity_denominator (with_down_time 0 ms)).
  split; [exact (frequency_sensitivity_on_valid ms V) |].
  split; [exact (frequency_sensitivity_on_valid _ V0) |].
  clear V0. destruct V as (HN & Hb & HT & Hd & Ht).
  destruct ms as [N beta T d tau].
  unfold sensitivity_denominator, with_down_time in *.
  cbn [particle_number efficiency measurement_time down_time coherence_time]
    in *.
  assert (Hc : 0 < (tau + d) / tau) by (apply Rdiv_lt_0_compat; lra).
  assert (Hc1 : 1 <= (tau + d) / tau).
  { apply (Rmult_le_reg_r tau); [assumption |].
    replace ((tau + d) / tau * tau) with (tau + d) by (field; lra). lra. }
  assert (Hsc : 1 <= sqrt ((tau + d) / tau)).
  { rewrite <- sqrt_1 at 1. apply sqrt_le_1_alt. exact Hc1. }
  assert (Hsplit : sqrt (N * T / (tau + 0))
                   = sqrt (N * T / (tau + d)) * sqrt ((tau + d) / tau)).
  { rewrite <- sqrt_mult_alt by lra. apply f_equal. field. lra. }
  assert (Hroot : tau * sqrt (N * T / (tau + 0)) = sqrt (N * T * tau)).
  { rewrite <- (sqrt_square tau) at 1 by lra.
    rewrite <- sqrt_mult_alt by nra. apply f_equal. field. lra. }
  pose proof (sqrt_lt_R0 _ Hq) as Hs.
  pose proof (sqrt_lt_R0 _ Hq0) as Hs0.
  assert (E0 : 2 * PI * tau * beta * sqrt (N * T / (tau + 0))
               = 2 * PI * beta * sqrt (N * T * tau)).
  { rewrite <- Hroot. ring. }
  assert (Ef : 1 / (2 * PI * tau * beta * sqrt (N * T / (tau + d)))
               = 1 / (2 * PI * tau * beta * sqrt (N * T / (tau + 0)))
                 * sqrt ((tau + d) / tau)).
  { rewrite Hsplit. field. repeat split; lra. }
  split; [now rewrite E0 |].
  split; [exact Ef |].
  rewrite Ef.
  assert (P0 : 0 < 1 / (2 * PI * tau * beta * sqrt (N * T / (tau + 0))))
    by (apply Rdiv_lt_0_compat; lra).
  nra.
Qed.

Lemma frequency_sensitivity_down_time_witness :
  exists f f0 : R,
    frequency_sensitivity_Hz ms_HfF_2017 = Ok f
    /\ frequency_sensitivity_Hz (with_down_time 0 ms_HfF_2017) = Ok f0
    /\ f0 <= f.
Proof.
  destruct (frequency_sensitivity_down_time ms_HfF_2017)
    as (f & f0 & H1 & H2 & _ & _ & H5).
  - unfold valid_settings, ms_HfF_2017; cbn. repeat split; lra.
  - exists f, f0. repeat split; assumption.
Defined.

(** ** The forward pipeline *)

(** A molecule with another [K_S]. *)
Definition with_K_S (x : R) (mol : Molecule) : Molecule :=
  {| W_S := W_S mol;
     K_S := x;
     a_0 := a_0 mol;
     a_1 := a_1 mol;
     a_2 := a_2 mol;
     molecule_name := molecule_name mol;
     nucleus_E_field_alignment := nucleus_E_field_alignment mol |}.

Lemma schiff_moment_sensitivity_steps
    (c : scipy_constants) (ms : MeasurementSettings) (mol : Molecule) :
  schiff_moment_sensitivity c ms mol
  = (f <- frequency_sensitivity_Hz ms ;;
     o <- true_div 1.0 (2 * nucleus_E_field_alignment mol) ;;
     t <- true_div (o * hbar c * (2 * PI * f))
            (W_S_SI c mol * schiff_SI c mol) ;;
     Ok (K_S mol * t)).
Proof.
  unfold schiff_moment_sensitivity, theta_QCD_sensitivity.
  destruct (frequency_sensitivity_Hz ms) as [f | e]; [| reflexivity].
  cbn [bind ret result_monad].
  destruct (true_div 1.0 (2 * nucleus_E_field_alignment mol)); reflexivity.
Qed.

(** The Schiff-moment sensitivity does not depend on [K_S]: the factor
    [K_S] it multiplies by cancels the [K_S] inside [schiff_SI].  Two
    molecules that differ in a nonzero [K_S] only have the same
    Schiff-moment, g_0, g_1, g_2, chromo-EDM and radium-225 sensitivities,
    and their theta_QCD sensitivities are in the inverse ratio of the
    [K_S]. *)
Theorem schiff_moment_independent_of_K_S
    (c : scipy_constants) (ms : MeasurementSettings) (mol : Molecule) (x : R) :
  K_S mol <> 0 -> x <> 0 ->
  schiff_moment_sensitivity c ms (with_K_S x mol)
    = schiff_moment_sensitivity c ms mol
  /\ g_0_sensitivity c ms (with_K_S x mol) = g_0_sensitivity c ms mol
  /\ g_1_sensitivity c ms (with_K_S x mol) = g_1_sensitivity c ms mol
  /\ g_2_sensitivity c ms (with_K_S x mol) = g_2_sensitivity c ms mol
  /\ up_down_quark_difference_chromo_EDM_sensitivity c ms (with_K_S x mol)
     = up_down_quark_difference_chromo_EDM_sensitivity c ms mol
  /\ radium_225_EDM_sensitivity c ms (with_K_S x mol)
     = radium_225_EDM_sensitivity c ms mol
  /\ (forall t t' : R,
        theta_QCD_sensitivity c ms mol = Ok t ->
        theta_QCD_sensitivity c ms (with_K_S x mol) = Ok t' ->
        x * t' = K_S mol * t).
Proof.
  intros HK Hx.
  assert (S : schiff_moment_sensitivity c ms (with_K_S x mol)
              = schiff_moment_sensitivity c ms mol).
  { rewrite !schiff_moment_sensitivity_steps.
    destruct (frequency_sensitivity_Hz ms) as [f | e]; [| reflexivity].
    cbn [bind result_monad nucleus_E_field_alignment with_K_S].
    destruct (true_div 1.0 (2 * nucleus_E_field_alignment mol)) as [o | e];
      [| reflexivity].
    unfold schiff_SI, W_S_SI. cbn [K_S W_S with_K_S].
    set (A := e_ c / (4.0 * PI * epsilon_0 c * Bohr_radius c ^ 4) * W_S mol
              * (e_ c * 1e-15 ^ 3)).
    set (num := o * hbar c * (2 * PI * f)).
    replace (e_ c / (4.0 * PI * epsilon_0 c * Bohr_radius c ^ 4) * W_S mol
             * (e_ c * 1e-15 ^ 3 * x)) with (A * x) by (unfold A; ring).
    replace (e_ c / (4.0 * PI * epsilon_0 c * Bohr_radius c ^ 4) * W_S mol
             * (e_ c * 1e-15 ^ 3 * K_S mol)) with (A * K_S mol)
      by (unfold A; ring).
    destruct (Req_dec_T A 0) as [E | NA].
    - rewrite E, !Rmult_0_l, true_div_zero. reflexivity.
    - rewrite !true_div_ok by (apply Rmult_integral_contrapositive_currified;
                               assumption).
      apply f_equal. field. repeat split; assumption. }
  split; [exact S |].
  unfold g_0_sensitivity, g_1_sensitivity, g_2_sensitivity,
    up_down_quark_difference_chromo_EDM_sensitivity, g_1_sensitivity,
    radium_225_EDM_sensitivity.
  rewrite S. cbn [a_0 a_1 a_2 with_K_S].
  repeat (split; [reflexivity |]).
  intros t t' Ht Ht'.
  unfold schiff_moment_sensitivity in S. rewrite Ht, Ht' in S.
  cbn [bind ret result_monad K_S with_K_S] in S.
  now injection S.
Qed.

Lemma schiff_moment_independent_of_K_S_witness :
  schiff_moment_sensitivity CODATA_2018 MeasurementSettings_default
    (with_K_S 2 Molecule_default)
  = schiff_moment_sensitivity CODATA_2018 MeasurementSettings_default
      Molecule_default.
Proof.
  apply (schiff_moment_independent_of_K_S CODATA_2018
           MeasurementSettings_default Molecule_default 2);
    cbn; lra.
Defined.

Lemma theta_QCD_sensitivity_on_valid
    (c : scipy_constants) (ms : MeasurementSettings) (mol : Molecule) :
  valid_settings ms ->
  nucleus_E_field_alignment mol <> 0 ->
  W_S_SI c mol * schiff_SI c mol <> 0 ->
  theta_QCD_sensitivity c ms mol
  = Ok (1.0 / (2 * nucleus_E_field_alignment mol) * hbar c
        * (2 * PI * (1 / sensitivity_denominator ms))
        / (W_S_SI c mol * schiff_SI c mol)).
Proof.
  intros V Ha Hw.
  unfold theta_QCD_sensitivity.
  rewrite (frequency_sensitivity_on_valid ms V).
  cbn [bind ret result_monad].
  rewrite true_div_ok by lra.
  rewrite true_div_ok by assumption.
  reflexivity.
Qed.

Lemma default_pipeline_runs :
  exists S : R,
    schiff_moment_sensitivity CODATA_2018 MeasurementSettings_default
      Molecule_default = Ok S.
Proof.
  pose proof default_molecule_factors as Hw.
  eexists.
  apply (schiff_moment_sensitivity_on_valid CODATA_2018
           MeasurementSettings_default Molecule_default
           default_settings_valid).
  - cbn [nucleus_E_field_alignment Molecule_default Molecule_init]. lra.
  - lra.
Qed.

(** With [a_0], [a_1], [a_2] not zero and a Schiff-moment sensitivity [S],
    the three couplings are numbers and the products [|a_0| g_0],
    [|a_1| |g_1|] and [|a_2| g_2] are all [|S| / prefactor]: the couplings
    are to each other as the inverses of the [|a_i|]. *)
Theorem coupling_products
    (c : scipy_constants) (ms : MeasurementSettings) (mol : Molecule) (S : R) :
  a_0 mol <> 0 -> a_1 mol <> 0 -> a_2 mol <> 0 ->
  schiff_moment_sensitivity c ms mol = Ok S ->
  exists g0 g1 g2 : R,
    g_0_sensitivity c ms mol = Ok g0
    /\ g_1_sensitivity c ms mol = Ok g1
    /\ g_2_sensitivity c ms mol = Ok g2
    /\ Rabs (a_0 mol) * g0 = Rabs S / _g_pi_NN_to_Schiff_prefactor
    /\ Rabs (a_1 mol) * Rabs g1 = Rabs S / _g_pi_NN_to_Schiff_prefactor
    /\ Rabs (a_2 mol) * g2 = Rabs S / _g_pi_NN_to_Schiff_prefactor.
Proof.
  intros H0 H1 H2 HS.
  destruct g_prefactor_value as [_ Hpos].
  set (p := _g_pi_NN_to_Schiff_prefactor) in *.
  assert (Key : forall a : R, a <> 0 ->
            Rabs a * Rabs (S / (p * a)) = Rabs S / p).
  { intros a Ha.
    rewrite <- Rabs_mult.
    replace (a * (S / (p * a))) with (S / p) by (field; split; lra).
    unfold Rdiv. rewrite Rabs_mult, (Rabs_pos_eq (/ p)); [reflexivity |].
    left. now apply Rinv_0_lt_compat. }
  assert (Np : forall a : R, a <> 0 -> p * a <> 0).
  { intros a Ha. apply Rmult_integral_contrapositive_currified; lra. }
  exists (Rabs (S / (p * a_0 mol))), (S / (p * a_1 mol)),
    (Rabs (S / (p * a_2 mol))).
  unfold g_0_sensitivity, g_1_sensitivity, g_2_sensitivity.
  rewrite HS. cbn [bind ret result_monad]. fold p.
  rewrite !true_div_ok by (apply Np; assumption).
  cbn [bind ret result_monad].
  repeat split; try reflexivity; apply Key; assumption.
Qed.

Lemma coupling_products_witness :
  exists S g0 g1 g2 : R,
    schiff_moment_sensitivity CODATA_2018 MeasurementSettings_default
      Molecule_default = Ok S
    /\ g_0_sensitivity CODATA_2018 MeasurementSettings_default Molecule_default
       = Ok g0
    /\ g_1_sensitivity CODATA_2018 MeasurementSettings_default Molecule_default
       = Ok g1
    /\ g_2_sensitivity CODATA_2018 MeasurementSettings_default Molecule_default
       = Ok g2
    /\ Rabs (-1.5) * g0 = Rabs S / _g_pi_NN_to_Schiff_prefactor
    /\ Rabs 6.0 * Rabs g1 = Rabs S / _g_pi_NN_to_Schiff_prefactor
    /\ Rabs (-4.0) * g2 = Rabs S / _g_pi_NN_to_Schiff_prefactor.
Proof.
  destruct default_pipeline_runs as [S HS].
  destruct (coupling_products CODATA_2018 MeasurementSettings_default
              Molecule_default S)
    as (g0 & g1 & g2 & G0 & G1 & G2 & P0 & P1 & P2);
    try exact HS;
    try (cbn [a_0 a_1 a_2 Molecule_default Molecule_init]; lra).
  exists S, g0, g1, g2. repeat split; assumption.
Defined.

(** The radium-225 EDM sensitivity is [8.5e-17 |S|] for a Schiff-moment
    sensitivity [S], hence not negative, and a [RaLimit] built from it gives
    [|S|] back as its Schiff limit and as its theta_QCD: the hierarchy
    inverts the last step of the forward pipeline. *)
Theorem radium_round_trip
    (c : scipy_constants) (ms : MeasurementSettings) (mol : Molecule)
    (y : Z) (r : string) (S : R) :
  schiff_moment_sensitivity c ms mol = Ok S ->
  exists d : R,
    radium_225_EDM_sensitivity c ms mol = Ok d
    /\ d = 8.5e-17 * Rabs S
    /\ 0 <= d
    /\ value_of _schiff_limit (construct RaLimit_cls y d r) = Ok (Rabs S)
    /\ value_of theta_QCD (construct RaLimit_cls y d r) = Ok (PyFloat (Rabs S)).
Proof.
  intros HS.
  assert (E : Rabs (-8.5e-17 * S) = 8.5e-17 * Rabs S).
  { rewrite Rabs_mult. rewrite (Rabs_left (-8.5e-17)) by lra. lra. }
  exists (Rabs (-8.5e-17 * S)).
  unfold radium_225_EDM_sensitivity. rewrite HS.
  cbn [bind ret result_monad].
  split; [reflexivity | split; [exact E | split; [apply Rabs_pos |]]].
  rewrite E. split; run_property; same_float.
Qed.

Lemma radium_round_trip_witness :
  exists S d : R,
    schiff_moment_sensitivity CODATA_2018 MeasurementSettings_default
      Molecule_default = Ok S
    /\ radium_225_EDM_sensitivity CODATA_2018 MeasurementSettings_default
         Molecule_default = Ok d
    /\ value_of theta_QCD (construct RaLimit_cls 2021 d "proposal")
       = Ok (PyFloat (Rabs S)).
Proof.
  destruct default_pipeline_runs as [S HS].
  destruct (radium_round_trip CODATA_2018 MeasurementSettings_default
              Molecule_default 2021 "proposal" S HS)
    as (d & Hd & _ & _ & _ & Ht).
  exists S, d. repeat split; assumption.
Defined.

(** The two routes from a radium Schiff moment to a chromo-EDM.  For a
    molecule with [a_1 = 6.0], the chromo-EDM [q] of the [RaLimit] built
    from the radium-225 EDM sensitivity and the chromo-EDM sensitivity [u] of
    the forward pipeline satisfy [13.5 q = prefactor |u|]: the hierarchy
    divides by 13.5 where the pipeline divides by [2 m_N g_A / F_pi], so
    [q <= |u|], and [q < |u|] unless the Schiff-moment sensitivity is
    zero. *)
Theorem radium_chromo_EDM_routes
    (c : scipy_constants) (ms : MeasurementSettings) (mol : Molecule)
    (y : Z) (r : string) (S : R) :
  a_1 mol = 6.0 ->
  schiff_moment_sensitivity c ms mol = Ok S ->
  exists d u q : R,
    radium_225_EDM_sensitivity c ms mol = Ok d
    /\ up_down_quark_difference_chromo_EDM_sensitivity c ms mol = Ok u
    /\ value_of cEDM (construct RaLimit_cls y d r) = Ok (PyFloat q)
    /\ 13.5 * q = _g_pi_NN_to_Schiff_prefactor * Rabs u
    /\ q <= Rabs u
    /\ (S <> 0 -> q < Rabs u).
Proof.
  intros Ha HS.
  destruct g_prefactor_value as [Hval Hpos].
  set (p := _g_pi_NN_to_Schiff_prefactor) in *.
  assert (Hp : p < 13.5) by lra.
  assert (E : Rabs (-8.5e-17 * S) = 8.5e-17 * Rabs S).
  { rewrite Rabs_mult. rewrite (Rabs_left (-8.5e-17)) by lra. lra. }
  assert (Hu : Rabs (S / (p * 6.0) / 2e14) = Rabs S / (p * 6.0) / 2e14).
  { unfold Rdiv. rewrite !Rabs_mult.
    rewrite (Rabs_pos_eq (/ (p * 6.0))), (Rabs_pos_eq (/ 2e14));
      [reflexivity | |]; left; apply Rinv_0_lt_compat; lra. }
  exists (Rabs (-8.5e-17 * S)), (S / (p * 6.0) / 2e14),
    (Rabs S / (6.0 * 13.5) / 2e14).
  unfold radium_225_EDM_sensitivity,
    up_down_quark_difference_chromo_EDM_sensitivity, g_1_sensitivity.
  rewrite HS. cbn [bind ret result_monad]. fold p. rewrite Ha.
  rewrite true_div_ok by lra. cbn [bind ret result_monad].
  pose proof (Rabs_pos S) as HSpos.
  assert (Hq : Rabs S / (6.0 * 13.5) / 2e14 * (13.5 * p)
               = Rabs S / (p * 6.0) / 2e14 * (p * p)) by (field; lra).
  split; [reflexivity | split; [reflexivity |]].
  split; [rewrite E; run_property; same_float |].
  rewrite Hu.
  assert (Hpos2 : 0 <= Rabs S / (p * 6.0) / 2e14).
  { unfold Rdiv. repeat apply Rmult_le_pos; try assumption;
      left; apply Rinv_0_lt_compat; lra. }
  assert (Hscale : Rabs S / (6.0 * 13.5) / 2e14
                   = Rabs S / (p * 6.0) / 2e14 * (p / 13.5))
    by (field; lra).
  assert (Hratio : 0 < p / 13.5 < 1).
  { split; [apply Rdiv_lt_0_compat; lra |].
    apply (Rmult_lt_reg_r 13.5); [lra |].
    replace (p / 13.5 * 13.5) with p by (field; lra). lra. }
  split; [rewrite Hscale; field; lra |].
  split; [rewrite Hscale; nra |].
  intros HS0.
  assert (0 < Rabs S) by (apply Rabs_pos_lt; assumption).
  assert (0 < Rabs S / (p * 6.0) / 2e14).
  { unfold Rdiv. repeat apply Rmult_lt_0_compat; try assumption;
      apply Rinv_0_lt_compat; lra. }
  rewrite Hscale. nra.
Qed.

Lemma radium_chromo_EDM_routes_witness :
  exists S d u q : R,
    schiff_moment_sensitivity CODATA_2018 MeasurementSettings_default
      Molecule_default = Ok S
    /\ radium_225_EDM_sensitivity CODATA_2018 MeasurementSettings_default
         Molecule_default = Ok d
    /\ up_down_quark_difference_chromo_EDM_sensitivity CODATA_2018
         MeasurementSettings_default Molecule_default = Ok u
    /\ value_of cEDM (construct RaLimit_cls 2021 d "proposal") = Ok (PyFloat q)
    /\ q <= Rabs u.
Proof.
  destruct default_pipeline_runs as [S HS].
  destruct (radium_chromo_EDM_routes CODATA_2018 MeasurementSettings_default
              Molecule_default 2021 "proposal" S eq_refl HS)
    as (d & u & q & Hd & Hu & Hq & _ & Hle & _).
  exists S, d, u, q. repeat split; assumption.
Defined.

(** The theta_QCD sensitivity is proportional to the frequency sensitivity:
    for one molecule and two settings, the theta_QCD sensitivities are to
    each other as the frequency sensitivities. *)
Theorem theta_QCD_follows_frequency
    (c : scipy_constants) (ms ms' : MeasurementSettings) (mol : Molecule)
    (f f' t t' : R) :
  frequency_sensitivity_Hz ms = Ok f ->
  frequency_sensitivity_Hz ms' = Ok f' ->
  theta_QCD_sensitivity c ms mol = Ok t ->
  theta_QCD_sensitivity c ms' mol = Ok t' ->
  t * f' = t' * f.
Proof.
  intros Hf Hf' Ht Ht'.
  unfold theta_QCD_sensitivity in Ht, Ht'.
  rewrite Hf in Ht. rewrite Hf' in Ht'.
  cbn [bind result_monad] in Ht, Ht'.
  destruct (true_div 1.0 (2 * nucleus_E_field_alignment mol)) as [o | e];
    [| discriminate Ht].
  cbn [bind result_monad] in Ht, Ht'.
  unfold true_div in Ht, Ht'.
  destruct (Req_dec_T (W_S_SI c mol * schiff_SI c mol) 0) as [E | NE];
    [discriminate Ht |].
  injection Ht as <-. injection Ht' as <-.
  field. split; intros Z; apply NE; rewrite Z; ring.
Qed.

Lemma theta_QCD_follows_frequency_witness :
  exists f f' t t' : R,
    frequency_sensitivity_Hz MeasurementSettings_default = Ok f
    /\ frequency_sensitivity_Hz ms_HfF_2017 = Ok f'
    /\ theta_QCD_sensitivity CODATA_2018 MeasurementSettings_default
         Molecule_default = Ok t
    /\ theta_QCD_sensitivity CODATA_2018 ms_HfF_2017 Molecule_default = Ok t'
    /\ t * f' = t' * f.
Proof.
  pose proof default_molecule_factors as Hw.
  assert (V : valid_settings ms_HfF_2017)
    by (unfold valid_settings, ms_HfF_2017; cbn; repeat split; lra).
  assert (Ha : nucleus_E_field_alignment Molecule_default <> 0)
    by (cbn [nucleus_E_field_alignment Molecule_default Molecule_init]; lra).
  assert (Hn : W_S_SI CODATA_2018 Molecule_default
               * schiff_SI CODATA_2018 Molecule_default <> 0) by lra.
  pose proof (frequency_sensitivity_on_valid _ default_settings_valid) as F1.
  pose proof (frequency_sensitivity_on_valid _ V) as F2.
  pose proof (theta_QCD_sensitivity_on_valid CODATA_2018 _ Molecule_default
                default_settings_valid Ha Hn) as T1.
  pose proof (theta_QCD_sensitivity_on_valid CODATA_2018 _ Molecule_default
                V Ha Hn) as T2.
  do 4 eexists.
  split; [exact F1 | split; [exact F2 | split; [exact T1 | split; [exact T2 |]]]].
  exact (theta_QCD_follows_frequency CODATA_2018 _ _ Molecule_default
           _ _ _ _ F1 F2 T1 T2).
Defined.

(** * load_data.py

    The file read itself, [numpy.genfromtxt] on the joined path, is outside
    the model: the loaders below receive the array it returned. *)

From Stdlib Require Import List.
Import ListNotations.

Module load_data.

(** A row of the structured array of dtype [["<i8", "<f8", "S11"]]. *)
Record measurement : Type := {
  field0 : Z;
  field1 : R;
  field2 : string
}.

(** What [genfromtxt] returns: a 0-d array for a file of one row, a 1-d array
    otherwise. *)
Inductive ndarray : Type :=
| Array0d (row : measurement)
| Array1d (rows : list measurement).

(** [numpy.atleast_1d]: a 0-d array becomes a 1-d array of one row. *)
Definition atleast_1d (data : ndarray) : ndarray :=
  match data with
  | Array0d row => Array1d [row]
  | Array1d rows => Array1d rows
  end.

(** [numpy.expand_dims(data, axis=0)] on a 0-d array. *)
Definition expand_dims_0d (row : measurement) : ndarray := Array1d [row].

(** [for measurement in data]: the rows of a 1-d array; a 0-d array cannot
    be iterated over (TypeError). *)
Definition iter (data : ndarray) : result (list measurement) :=
  match data with
  | Array0d _ => Raise TypeError
  | Array1d rows => Ok rows
  end.

(** [dict.get]: None for a key that is not in the dictionary. *)
Fixpoint dict_get (d : list (string * klass)) (key : string) : option klass :=
  match d with
  | [] => None
  | (k, v) :: rest => if String.eqb key k then Some v else dict_get rest key
  end.

Definition hadronic_map : list (string * klass) :=
  [ ("neutron"%string, NeutronLimit_cls);
    ("TlF"%string, TlFLimit_cls);
    ("Hg"%string, HgLimit_cls);
    ("Xe"%string, XeLimit_cls);
    ("Ra"%string, RaLimit_cls);
    ("Yb"%string, YbLimit_cls) ].

Definition _get_limit_class (system : string) : option klass :=
  dict_get hadronic_map system.

(** [limit_class(year=year, edm_e_cm=edm_limit, ref=ref)]: calling None is a
    TypeError. *)
Definition call_class (limit_class : option klass)
    (year0 : Z) (edm_e_cm0 : R) (ref0 : string) : result instance :=
  match limit_class with
  | Some k => Ok (construct k year0 edm_e_cm0 ref0)
  | None => Raise TypeError
  end.

(** The loop [for measurement in data: ... EDMs.append(...)], the list
    [EDMs] being threaded through. *)
Fixpoint for_measurement_in (limit_class : option klass)
    (data : list measurement) (EDMs : list instance)
  : result (list instance) :=
  match data with
  | [] => Ok EDMs
  | measurement :: rest =>
      let year := field0 measurement in
      let edm_limit := field1 measurement in
      let ref := field2 measurement in
      obj <- call_class limit_class year edm_limit ref ;;
      for_measurement_in limit_class rest (EDMs ++ [obj])
  end.

(** [hadronic(system)], [data] being what [genfromtxt] returned. *)
Definition hadronic (system : string) (data : ndarray)
  : result (list instance) :=
  let data := atleast_1d data in
  let limit_class := _get_limit_class system in
  rows <- iter data ;;
  for_measurement_in limit_class rows [].

(** [electron(file_name)], [data] being what [genfromtxt] returned. *)
Definition electron (data : ndarray) : result (list instance) :=
  let data :=
    match data with
    | Array0d row => expand_dims_0d row     (* data.ndim == 0 *)
    | Array1d _ => data
    end in
  rows <- iter data ;;
  for_measurement_in (Some eEDMLimit_cls) rows [].

(** The object a row becomes. *)
Definition instance_of_row (k : klass) (m : measurement) : instance :=
  construct k (field0 m) (field1 m) (field2 m).

End load_data.

(** ** Properties of the loaders *)

Import load_data.

(** The rows of the array, whichever shape [genfromtxt] gave it. *)
Definition rows_of (data : ndarray) : list measurement :=
  match data with
  | Array0d row => [row]
  | Array1d rows => rows
  end.

Lemma for_measurement_in_class (k : klass) (rows : list measurement)
    (EDMs : list instance) :
  for_measurement_in (Some k) rows EDMs
  = Ok (EDMs ++ map (instance_of_row k) rows).
Proof.
  revert EDMs. induction rows as [| m rest IH]; intros EDMs.
  - cbn. now rewrite app_nil_r.
  - cbn [for_measurement_in call_class bind result_monad].
    rewrite IH. rewrite <- app_assoc. reflexivity.
Qed.

Lemma for_measurement_in_None (rows : list measurement) (EDMs : list instance) :
  rows <> [] -> for_measurement_in None rows EDMs = Raise TypeError.
Proof.
  destruct rows as [| m rest]; [intros H; now elim H | reflexivity].
Qed.

Lemma get_limit_class_sound (name : string) (k : klass) :
  _get_limit_class name = Some k ->
  system k = Some name /\ hadronic_cls k = true.
Proof.
  intros H.
  unfold _get_limit_class, hadronic_map in H. cbn [dict_get] in H.
  repeat match type of H with
  | (if String.eqb name ?s then _ else _) = _ =>
      destruct (String.eqb_spec name s) as [-> | _];
        [injection H as <-; split; reflexivity |]
  end.
  discriminate H.
Qed.

(** The class attribute [system] and the dictionary of the loader are
    inverse to each other: the system name of each of the six hadronic
    classes is mapped to that class, and a name is mapped to a class only if
    it is the system name of that class, which is then hadronic.  Every
    other name, the electron's among them, gets None. *)
Theorem get_limit_class_inverts_system :
  (forall k : klass, hadronic_cls k = true ->
     exists name : string,
       system k = Some name /\ _get_limit_class name = Some k)
  /\ (forall (name : string) (k : klass),
        _get_limit_class name = Some k ->
        system k = Some name /\ hadronic_cls k = true)
  /\ _get_limit_class "electron" = None
  /\ _get_limit_class "" = None
  /\ _get_limit_class "hg" = None.
Proof.
  split; [| split; [| repeat split]].
  - intros k Hk. destruct k; try discriminate Hk;
      eexists; split; reflexivity.
  - exact get_limit_class_sound.
Qed.

(** Loading a known system gives one object per row, in the order of the
    rows, each of the class of the system and carrying the year, the bound
    and the reference of its row; a file of a single row, which
    [genfromtxt] returns as a 0-d array, gives a list of one object. *)
Theorem hadronic_loads_every_row (name : string) (k : klass) (data : ndarray) :
  _get_limit_class name = Some k ->
  exists EDMs : list instance,
    hadronic name data = Ok EDMs
    /\ EDMs = map (instance_of_row k) (rows_of data)
    /\ length EDMs = length (rows_of data)
    /\ Forall (fun o => cls o = k) EDMs
    /\ (forall row : measurement,
          hadronic name (Array0d row)
          = Ok [construct k (field0 row) (field1 row) (field2 row)]).
Proof.
  intros Hk.
  assert (Run : forall d, hadronic name d = Ok (map (instance_of_row k) (rows_of d))).
  { intros d. unfold hadronic. rewrite Hk.
    destruct d as [row | rows]; cbn [atleast_1d iter bind result_monad rows_of];
      rewrite for_measurement_in_class; reflexivity. }
  exists (map (instance_of_row k) (rows_of data)).
  split; [apply Run | split; [reflexivity | split; [| split]]].
  - apply length_map.
  - apply Forall_map. apply Forall_forall. intros m _. reflexivity.
  - intros row. rewrite Run. reflexivity.
Qed.

Lemma hadronic_loads_every_row_witness :
  exists EDMs : list instance,
    hadronic "Hg"
      (Array1d [ {| field0 := 2009; field1 := 3.1e-29; field2 := "Griffith2009" |};
                 {| field0 := 2016; field1 := 7.4e-30; field2 := "Graner2016" |} ])
    = Ok EDMs
    /\ EDMs = [ construct HgLimit_cls 2009 3.1e-29 "Griffith2009";
                construct HgLimit_cls 2016 7.4e-30 "Graner2016" ].
Proof.
  destruct (hadronic_loads_every_row "Hg" HgLimit_cls
              (Array1d [ {| field0 := 2009; field1 := 3.1e-29;
                            field2 := "Griffith2009" |};
                         {| field0 := 2016; field1 := 7.4e-30;
                            field2 := "Graner2016" |} ]) eq_refl)
    as (EDMs & H1 & H2 & _).
  exists EDMs. split; [exact H1 | exact H2].
Defined.

(** Loading a system that the dictionary does not know: with no row there is
    nothing to construct and the result is the empty list; with at least
    one row the first construction calls None, a TypeError. *)
Theorem hadronic_unknown_system (name : string) (data : ndarray) :
  _get_limit_class name = None ->
  (rows_of data = [] -> hadronic name data = Ok [])
  /\ (rows_of data <> [] -> hadronic name data = Raise TypeError).
Proof.
  intros Hk. unfold hadronic. rewrite Hk.
  destruct data as [row | rows];
    cbn [atleast_1d iter bind result_monad rows_of].
  - split; [discriminate | reflexivity].
  - split.
    + intros ->. reflexivity.
    + apply for_measurement_in_None.
Qed.

Lemma hadronic_unknown_system_witness :
  hadronic "electron"
    (Array0d {| field0 := 2018; field1 := 1.1e-29; field2 := "ACME2018" |})
  = Raise TypeError.
Proof.
  apply (hadronic_unknown_system "electron"
           (Array0d {| field0 := 2018; field1 := 1.1e-29;
                       field2 := "ACME2018" |}) eq_refl).
  discriminate.
Defined.

(** The electron loader never fails: it gives one [eEDMLimit] per row, in
    order, and treats a 0-d array like the 1-d array of its one row. *)
Theorem electron_loads_every_row (data : ndarray) :
  electron data = Ok (map (instance_of_row eEDMLimit_cls) (rows_of data))
  /\ (forall row : measurement,
        electron (Array0d row) = electron (Array1d [row])).
Proof.
  split.
  - unfold electron.
    destruct data as [row | rows];
      cbn [expand_dims_0d iter bind result_monad rows_of];
      rewrite for_measurement_in_class; reflexivity.
  - intros row. reflexivity.
Qed.

Lemma hadronic_load_run (name : string) (data : ndarray) (EDMs : list instance) :
  hadronic name data = Ok EDMs ->
  EDMs = []
  \/ exists k : klass,
       hadronic_cls k = true /\ EDMs = map (instance_of_row k) (rows_of data).
Proof.
  intros H. unfold hadronic in H.
  destruct (_get_limit_class name) as [k |] eqn:Hk.
  - right. exists k.
    split; [apply (get_limit_class_sound name k Hk) |].
    destruct data as [row | rows];
      cbn [atleast_1d iter bind result_monad rows_of] in *;
      rewrite for_measurement_in_class in H; now injection H as <-.
  - left.
    destruct data as [row | rows];
      cbn [atleast_1d iter bind result_monad] in H.
    + discriminate H.
    + destruct rows as [| m rest]; [now injection H as <- | discriminate H].
Qed.

(** Whatever a hadronic load returns converts: every object in the list has
    a float theta_QCD, a float chromo-EDM, both the bound of its row times a
    positive factor of its class, never None and never an exception.  Every
    object of an electron load has None for both, and its inherited mass
    property is a TypeError. *)
Theorem loaded_objects_convert
    (name : string) (data : ndarray) (EDMs : list instance) :
  (hadronic name data = Ok EDMs ->
   Forall (fun o =>
             exists b s s' : R,
               edm_e_cm o = Some b /\ 0 < s /\ 0 < s'
               /\ value_of theta_QCD o = Ok (PyFloat (s * b))
               /\ value_of cEDM o = Ok (PyFloat (s' * b))) EDMs)
  /\ (electron data = Ok EDMs ->
      Forall (fun o =>
                value_of theta_QCD o = Ok PyNone
                /\ value_of cEDM o = Ok PyNone
                /\ value_of new_particle_mass_from_cEDM o = Raise TypeError)
        EDMs).
Proof.
  split.
  - intros H.
    destruct (hadronic_load_run name data EDMs H) as [-> | (k & Hk & ->)];
      [constructor |].
    apply Forall_map, Forall_forall. intros m _.
    exists (field1 m), (theta_QCD_slope k), (cEDM_slope k).
    unfold instance_of_row.
    rewrite theta_QCD_linear, cEDM_linear by assumption.
    repeat split;
      [now apply theta_QCD_slope_pos | now apply cEDM_slope_pos].
  - intros H. unfold electron in H.
    assert (E : EDMs = map (instance_of_row eEDMLimit_cls) (rows_of data)).
    { destruct data as [row | rows];
        cbn [expand_dims_0d iter bind result_monad rows_of] in *;
        rewrite for_measurement_in_class in H; now injection H as <-. }
    rewrite E. apply Forall_map, Forall_forall. intros m _.
    repeat split.
Qed.

Lemma loaded_objects_convert_witness :
  Forall (fun o =>
            exists b s s' : R,
              edm_e_cm o = Some b /\ 0 < s /\ 0 < s'
              /\ value_of theta_QCD o = Ok (PyFloat (s * b))
              /\ value_of cEDM o = Ok (PyFloat (s' * b)))
    [construct RaLimit_cls 2016 1.4e-23 "Bishof2016"].
Proof.
  apply (loaded_objects_convert "Ra"
           (Array0d {| field0 := 2016; field1 := 1.4e-23;
                       field2 := "Bishof2016" |})
           [construct RaLimit_cls 2016 1.4e-23 "Bishof2016"]).
  reflexivity.
Defined.

(** ** The domain of the theta_QCD sensitivity *)

(** Once the frequency sensitivity is a number, the theta_QCD sensitivity
    and the Schiff-moment sensitivity are numbers exactly when the alignment
    is not zero and the product of [W_S_SI] and [schiff_SI] is not zero.
    With a zero alignment, a zero [W_S] or a zero [K_S] neither of them is a
    number: a division by zero has happened, and what follows it (a
    division by a number, the product with [K_S]) does not lead back to
    one. *)
Theorem theta_QCD_sensitivity_domain
    (c : scipy_constants) (ms : MeasurementSettings) (mol : Molecule) (f : R) :
  frequency_sensitivity_Hz ms = Ok f ->
  ((exists t : R, theta_QCD_sensitivity c ms mol = Ok t)
   <-> nucleus_E_field_alignment mol <> 0
       /\ W_S_SI c mol * schiff_SI c mol <> 0)
  /\ ((exists S : R, schiff_moment_sensitivity c ms mol = Ok S)
      <-> nucleus_E_field_alignment mol <> 0
          /\ W_S_SI c mol * schiff_SI c mol <> 0)
  /\ (nucleus_E_field_alignment mol <> 0 ->
      W_S_SI c mol * schiff_SI c mol <> 0 ->
      exists t : R,
        theta_QCD_sensitivity c ms mol = Ok t
        /\ schiff_moment_sensitivity c ms mol = Ok (K_S mol * t)
        /\ t = 1.0 / (2 * nucleus_E_field_alignment mol) * hbar c
                * (2 * PI * f) / (W_S_SI c mol * schiff_SI c mol))
  /\ (nucleus_E_field_alignment mol = 0 \/ W_S mol = 0 \/ K_S mol = 0 ->
      (forall t : R, theta_QCD_sensitivity c ms mol <> Ok t)
      /\ (forall S : R, schiff_moment_sensitivity c ms mol <> Ok S)).
Proof.
  intros Hf.
  assert (Z : nucleus_E_field_alignment mol = 0
              \/ W_S_SI c mol * schiff_SI c mol = 0 ->
              theta_QCD_sensitivity c ms mol = Raise ZeroDivisionError).
  { intros Hz. unfold theta_QCD_sensitivity. rewrite Hf.
    cbn [bind result_monad].
    destruct (Req_dec_T (nucleus_E_field_alignment mol) 0) as [E | NE].
    - rewrite E, Rmult_0_r, true_div_zero. reflexivity.
    - rewrite true_div_ok
        by (apply Rmult_integral_contrapositive_currified; [lra | exact NE]).
      cbn [bind result_monad].
      destruct Hz as [E | E]; [contradiction |].
      rewrite E. apply true_div_zero. }
  assert (P : nucleus_E_field_alignment mol <> 0 ->
              W_S_SI c mol * schiff_SI c mol <> 0 ->
              theta_QCD_sensitivity c ms mol
              = Ok (1.0 / (2 * nucleus_E_field_alignment mol) * hbar c
                    * (2 * PI * f) / (W_S_SI c mol * schiff_SI c mol))).
  { intros Ha Hw.
    unfold theta_QCD_sensitivity. rewrite Hf. cbn [bind result_monad].
    rewrite true_div_ok
      by (apply Rmult_integral_contrapositive_currified; [lra | exact Ha]).
    cbn [bind result_monad].
    apply true_div_ok. exact Hw. }
  assert (T : (exists t : R, theta_QCD_sensitivity c ms mol = Ok t)
              <-> nucleus_E_field_alignment mol <> 0
                  /\ W_S_SI c mol * schiff_SI c mol <> 0).
  { split.
    - intros [t Ht].
      split; intros E; rewrite Z in Ht; try discriminate Ht;
        [left | right]; exact E.
    - intros [Ha Hw]. eexists. exact (P Ha Hw). }
  assert (M : (exists S : R, schiff_moment_sensitivity c ms mol = Ok S)
              <-> (exists t : R, theta_QCD_sensitivity c ms mol = Ok t)).
  { unfold schiff_moment_sensitivity.
    destruct (theta_QCD_sensitivity c ms mol) as [t | e];
      cbn [bind ret result_monad]; split; intros [x Hx];
      try discriminate Hx; eexists; reflexivity. }
  split; [exact T | split; [rewrite M; exact T | split]].
  - intros Ha Hw. eexists.
    split; [exact (P Ha Hw) | split; [| reflexivity]].
    unfold schiff_moment_sensitivity. rewrite (P Ha Hw). reflexivity.
  - intros Hz.
    assert (Hz' : nucleus_E_field_alignment mol = 0
                  \/ W_S_SI c mol * schiff_SI c mol = 0).
    { destruct Hz as [E | [E | E]]; [left; exact E | right | right];
        unfold W_S_SI, schiff_SI; rewrite E; ring. }
    split.
    + intros t Ht. rewrite (Z Hz') in Ht. discriminate Ht.
    + intros S HS. unfold schiff_moment_sensitivity in HS.
      rewrite (Z Hz') in HS. discriminate HS.
Qed.

Lemma theta_QCD_sensitivity_domain_witness :
  (forall t : R,
      theta_QCD_sensitivity CODATA_2018 MeasurementSettings_default
        (with_K_S 0 Molecule_default) <> Ok t)
  /\ (forall S : R,
        schiff_moment_sensitivity CODATA_2018 MeasurementSettings_default
          (with_K_S 0 Molecule_default) <> Ok S).
Proof.
  apply (theta_QCD_sensitivity_domain CODATA_2018 MeasurementSettings_default
           (with_K_S 0 Molecule_default) _
           (frequency_sensitivity_on_valid _ default_settings_valid)).
  right. right. reflexivity.
Defined.
